(** * Flow-Motion-Depth: [flow_motion_net.py]

    A model of the optical-flow / ego-motion network of
    [src/flow-motion-depth/flow_motion_net.py] and the properties its
    specification states about it.

    The development has two views of the same program.

    - The numerical view ([Torch], [Warper], [MotionHead], [MotionDecoder])
      gives tensors their values.  Scalars are real numbers: float32
      rounding is idealised away, so "equal within tolerance" statements of
      the specification are proved as exact equalities over [R].
    - The architectural view ([Arch], [Shapes], [Pipeline]) keeps the module
      tree that the constructors build, with the provenance of every
      parameter tensor, and runs [forward] over tensor shapes.

    Python integers are [Z]; a raised exception is a [Raise] result. *)

From Stdlib Require Import Reals Lra Lia ZArith QArith List String RNsatz.
From stdpp Require Import gmap list strings.

#[local] Open Scope Z_scope.

(** ** Python results: a value, or a raised exception *)

Module Py.

Inductive exn : Type :=
| IndexError
| ValueError
| RuntimeError
| ZeroDivisionError
| AttributeError.

Inductive Result (A : Type) : Type :=
| OK (a : A)
| Raise (e : exn).

Arguments OK {A} a.
Arguments Raise {A} e.

#[export] Instance Result_ret : MRet Result := @OK.

#[export] Instance Result_bind : MBind Result :=
  fun A B (f : A -> Result B) (m : Result A) =>
    match m with
    | OK a => f a
    | Raise e => Raise e
    end.

#[export] Instance Result_fmap : FMap Result :=
  fun A B (f : A -> B) (m : Result A) =>
    match m with
    | OK a => OK (f a)
    | Raise e => Raise e
    end.

Definition returns {A : Type} (m : Result A) : Prop :=
  match m with OK _ => True | Raise _ => False end.

End Py.

Export Py.

(** ** Layers and their parameters

    A layer is its hyper-parameters and its parameter tensors.  The type
    [P] of a parameter is [Tensor] where values are computed and [Init]
    where only the way the tensor was last initialised is tracked. *)

Module NN.

(** [nn.Conv2d] and [nn.ConvTranspose2d], square kernels.  The weight of a
    convolution has shape [[out_channels; in_channels; k; k]], its bias
    shape [[out_channels]]. *)
Record Conv2d (P : Type) : Type := mkConv2d {
  in_channels : Z;
  out_channels : Z;
  kernel_size : Z;
  stride : Z;
  padding : Z;
  dilation : Z;
  weight : P;
  bias : option P
}.

(** [nn.Linear]; the weight has shape [[out_features; in_features]]. *)
Record Linear (P : Type) : Type := mkLinear {
  in_features : Z;
  out_features : Z;
  lin_weight : P;
  lin_bias : option P
}.

Arguments mkConv2d {P}.
Arguments in_channels {P}.
Arguments out_channels {P}.
Arguments kernel_size {P}.
Arguments stride {P}.
Arguments padding {P}.
Arguments dilation {P}.
Arguments weight {P}.
Arguments bias {P}.
Arguments mkLinear {P}.
Arguments in_features {P}.
Arguments out_features {P}.
Arguments lin_weight {P}.
Arguments lin_bias {P}.

End NN.

Export NN.

(** ** The tensor library, numerically *)

Module Torch.

#[local] Open Scope R_scope.

(** A tensor is its [size()] and its entries, read at a multi-index.
    Entries outside the shape are never read by a well-shaped program. *)
Record Tensor : Type := mkTensor {
  shape : list Z;
  dat : list Z -> R
}.

Definition valid_index (s idx : list Z) : Prop :=
  Forall2 (fun d k => (0 <= k < d)%Z) s idx.

#[export] Instance Rlt_decision : RelDecision Rlt := Rlt_dec.
#[export] Instance Rle_decision : RelDecision Rle := Rle_dec.
#[export] Instance Req_decision : EqDecision R := Req_dec_T.

Definition full (s : list Z) (v : R) : Tensor := mkTensor s (fun _ => v).

(** [torch.ones(size)], [torch.zeros(size)] *)
Definition ones (s : list Z) : Tensor := full s 1.
Definition zeros (s : list Z) : Tensor := full s 0.

(** *** Broadcasting of element-wise operations

    Shapes are aligned at their last dimension; two dimensions are
    compatible when they are equal or one of them is 1. *)

Definition bdim (a b : Z) : Result Z :=
  if (a =? b)%Z then OK a
  else if (a =? 1)%Z then OK b
  else if (b =? 1)%Z then OK a
  else Raise RuntimeError.

Fixpoint broadcast_rev (s t : list Z) : Result (list Z) :=
  match s, t with
  | [], _ => OK t
  | _, [] => OK s
  | a :: s', b :: t' =>
      d ← bdim a b;
      r ← broadcast_rev s' t';
      OK (d :: r)
  end.

Definition broadcast_shapes (s t : list Z) : Result (list Z) :=
  r ← broadcast_rev (rev s) (rev t); OK (rev r).

(** The entry of an operand of shape [s] that an output index reads. *)
Definition bindex (s idx : list Z) : list Z :=
  zip_with (fun d k => if (d =? 1)%Z then 0%Z else k) s
           (drop (length idx - length s) idx).

Definition ewise (f : R -> R -> R) (x y : Tensor) : Result Tensor :=
  s ← broadcast_shapes (shape x) (shape y);
  OK (mkTensor s (fun idx =>
        f (dat x (bindex (shape x) idx)) (dat y (bindex (shape y) idx)))).

Definition add : Tensor -> Tensor -> Result Tensor := ewise Rplus.
Definition sub : Tensor -> Tensor -> Result Tensor := ewise Rminus.
Definition mul : Tensor -> Tensor -> Result Tensor := ewise Rmult.
Definition div : Tensor -> Tensor -> Result Tensor := ewise Rdiv.

(** [t[t < c] = v] and [t[t > c] = v] *)
Definition masked_fill_lt (t : Tensor) (c v : R) : Tensor :=
  mkTensor (shape t)
    (fun idx => if bool_decide (dat t idx < c) then v else dat t idx).

Definition masked_fill_gt (t : Tensor) (c v : R) : Tensor :=
  mkTensor (shape t)
    (fun idx => if bool_decide (c < dat t idx) then v else dat t idx).

(** [t.permute(0, 2, 3, 1)] *)
Definition permute_0231 (t : Tensor) : Result Tensor :=
  match shape t with
  | [b; c; h; w] =>
      OK (mkTensor [b; h; w; c]
            (fun idx =>
               match idx with
               | [i; j; k; l] => dat t [i; l; j; k]
               | _ => 0
               end))
  | _ => Raise RuntimeError
  end.

(** *** [nn.functional.grid_sample], bilinear, zero padding

    [align_corners] selects how a normalised coordinate in [-1, 1] is
    mapped to a pixel coordinate: with [true], -1 and 1 are the centres of
    the first and last pixel; with [false], they are the outer edges of
    those pixels. *)

Definition unnormalize (align_corners : bool) (size : Z) (g : R) : R :=
  if align_corners
  then (g + 1) / 2 * (IZR size - 1)
  else ((g + 1) * IZR size - 1) / 2.

(** one input pixel, zero outside the image *)
Definition pixel (input : Tensor) (n c y x : Z) : R :=
  match shape input with
  | [_; _; H; W] =>
      if bool_decide (0 <= x < W /\ 0 <= y < H)%Z
      then dat input [n; c; y; x]
      else 0
  | _ => 0
  end.

Definition bilinear (align_corners : bool) (input : Tensor)
    (n c : Z) (gx gy : R) : R :=
  match shape input with
  | [_; _; H; W] =>
      let ix := unnormalize align_corners W gx in
      let iy := unnormalize align_corners H gy in
      let x0 := Zfloor ix in
      let y0 := Zfloor iy in
      let x1 := (x0 + 1)%Z in
      let y1 := (y0 + 1)%Z in
      let nw := (IZR x1 - ix) * (IZR y1 - iy) in
      let ne := (ix - IZR x0) * (IZR y1 - iy) in
      let sw := (IZR x1 - ix) * (iy - IZR y0) in
      let se := (ix - IZR x0) * (iy - IZR y0) in
      pixel input n c y0 x0 * nw + pixel input n c y0 x1 * ne
      + pixel input n c y1 x0 * sw + pixel input n c y1 x1 * se
  | _ => 0
  end.

Definition grid_sample (align_corners : bool) (input grid : Tensor)
    : Result Tensor :=
  match shape input, shape grid with
  | [N; C; H; W], [N'; Ho; Wo; two] =>
      if bool_decide (N = N' /\ two = 2 /\ 0 < H /\ 0 < W)%Z
      then OK (mkTensor [N; C; Ho; Wo]
                 (fun idx =>
                    match idx with
                    | [n; c; h; w] =>
                        bilinear align_corners input n c
                          (dat grid [n; h; w; 0%Z]) (dat grid [n; h; w; 1%Z])
                    | _ => 0
                    end))
      else Raise RuntimeError
  | _, _ => Raise RuntimeError
  end.

(** *** Sums over [range(n)] *)

Fixpoint sum_upto (n : nat) (f : Z -> R) : R :=
  match n with
  | O => 0
  | S k => sum_upto k f + f (Z.of_nat k)
  end.

Definition sum_range (n : Z) (f : Z -> R) : R := sum_upto (Z.to_nat n) f.

(** *** Layers *)

Definition bias_at (b : option Tensor) (o : Z) : R :=
  match b with
  | Some t => dat t [o]
  | None => 0
  end.

(** the output extent of a convolution along one axis *)
Definition conv_out (size k s p d : Z) : Z :=
  ((size + 2 * p - d * (k - 1) - 1) `div` s + 1)%Z.

Definition conv2d (m : Conv2d Tensor) (x : Tensor) : Result Tensor :=
  match shape x with
  | [B; C; H; W] =>
      let k := kernel_size m in
      let s := stride m in
      let p := padding m in
      let d := dilation m in
      let span := (d * (k - 1) + 1)%Z in
      if bool_decide (C = in_channels m /\ span <= H + 2 * p
                      /\ span <= W + 2 * p)%Z
      then OK (mkTensor
                 [B; out_channels m; conv_out H k s p d; conv_out W k s p d]
                 (fun idx =>
                    match idx with
                    | [b; o; i; j] =>
                        bias_at (bias m) o
                        + sum_range C (fun c =>
                            sum_range k (fun u =>
                              sum_range k (fun v =>
                                dat (weight m) [o; c; u; v]
                                * pixel x b c (i * s + u * d - p)
                                              (j * s + v * d - p))))
                    | _ => 0
                    end))
      else Raise RuntimeError
  | _ => Raise RuntimeError
  end.

(** [nn.LeakyReLU(negative_slope)] *)
Definition leaky_relu (negative_slope : R) (x : Tensor) : Tensor :=
  mkTensor (shape x)
    (fun idx =>
       if bool_decide (0 < dat x idx) then dat x idx
       else dat x idx * negative_slope).

(** [nn.Linear] on the last axis *)
Definition linear (m : Linear Tensor) (x : Tensor) : Result Tensor :=
  match rev (shape x) with
  | n :: pre =>
      if bool_decide (n = in_features m)
      then OK (mkTensor (rev pre ++ [out_features m])
                 (fun idx =>
                    match rev idx with
                    | o :: ipre =>
                        sum_range n (fun i =>
                          dat x (rev ipre ++ [i]) * dat (lin_weight m) [o; i])
                        + bias_at (lin_bias m) o
                    | [] => 0
                    end))
      else Raise RuntimeError
  | [] => Raise RuntimeError
  end.

Inductive Layer : Type :=
| Conv2dL (m : Conv2d Tensor)
| LeakyReLUL (negative_slope : R)
| LinearL (m : Linear Tensor).

Definition layer_call (l : Layer) (x : Tensor) : Result Tensor :=
  match l with
  | Conv2dL m => conv2d m x
  | LeakyReLUL a => OK (leaky_relu a x)
  | LinearL m => linear m x
  end.

(** [nn.Sequential]: the layers in order *)
Fixpoint sequential (ls : list Layer) (x : Tensor) : Result Tensor :=
  match ls with
  | [] => OK x
  | l :: ls' => y ← layer_call l x; sequential ls' y
  end.

(** *** Shape manipulation *)

(** [torch.cat((x, y), 1)] *)
Definition cat2 (x y : Tensor) : Result Tensor :=
  match shape x, shape y with
  | B :: C1 :: r1, B' :: C2 :: r2 =>
      if bool_decide (B = B' /\ r1 = r2)
      then OK (mkTensor (B :: (C1 + C2)%Z :: r1)
                 (fun idx =>
                    match idx with
                    | b :: c :: r =>
                        if bool_decide (c < C1)%Z then dat x idx
                        else dat y (b :: (c - C1)%Z :: r)
                    | _ => 0
                    end))
      else Raise RuntimeError
  | _, _ => Raise RuntimeError
  end.

(** [t.repeat(n, 1, 1, 1)] *)
Definition repeat_batch (t : Tensor) (n : Z) : Result Tensor :=
  match shape t with
  | [B; C; H; W] =>
      OK (mkTensor [(n * B)%Z; C; H; W]
            (fun idx =>
               match idx with
               | b :: r => dat t ((b `mod` B)%Z :: r)
               | [] => 0
               end))
  | _ => Raise RuntimeError
  end.

(** [t.view(b, t.shape[1], -1)] of a 4-dimensional tensor *)
Definition view_flat (t : Tensor) (b : Z) : Result Tensor :=
  match shape t with
  | [B; C; H; W] =>
      if bool_decide (b = B /\ B * C <> 0)%Z
      then OK (mkTensor [B; C; (H * W)%Z]
                 (fun idx =>
                    match idx with
                    | [n; c; i] => dat t [n; c; (i `div` W)%Z; (i `mod` W)%Z]
                    | _ => 0
                    end))
      else Raise RuntimeError
  | _ => Raise RuntimeError
  end.

(** [torch.mean(t, dim = 2)] of a 3-dimensional tensor *)
Definition mean_dim2 (t : Tensor) : Result Tensor :=
  match shape t with
  | [B; C; L] =>
      OK (mkTensor [B; C]
            (fun idx =>
               match idx with
               | [n; c] => sum_range L (fun i => dat t [n; c; i]) / IZR L
               | _ => 0
               end))
  | _ => Raise IndexError
  end.

(** [t[:, lo:hi]] for non-negative bounds ([hi = None]: to the end) *)
Definition slice_bounds (n lo : Z) (hi : option Z) : Z * Z :=
  let lo' := Z.min lo n in
  let hi' := match hi with Some h => Z.min h n | None => n end in
  (lo', Z.max lo' hi').

Definition slice_cols (t : Tensor) (lo : Z) (hi : option Z) : Result Tensor :=
  match shape t with
  | B :: n :: rest =>
      let '(lo', hi') := slice_bounds n lo hi in
      OK (mkTensor (B :: (hi' - lo')%Z :: rest)
            (fun idx =>
               match idx with
               | b :: j :: r => dat t (b :: (lo' + j)%Z :: r)
               | _ => 0
               end))
  | _ => Raise IndexError
  end.

(** [t[:, lo:hi] = src] *)
Definition set_cols (t : Tensor) (lo : Z) (hi : option Z) (src : Tensor)
    : Result Tensor :=
  match shape t with
  | B :: n :: rest =>
      let '(lo', hi') := slice_bounds n lo hi in
      let target := B :: (hi' - lo')%Z :: rest in
      s ← broadcast_shapes target (shape src);
      if bool_decide (s = target)
      then OK (mkTensor (shape t)
                 (fun idx =>
                    match idx with
                    | b :: j :: r =>
                        if bool_decide (lo' <= j < hi')%Z
                        then dat src (bindex (shape src) (b :: (j - lo')%Z :: r))
                        else dat t idx
                    | _ => dat t idx
                    end))
      else Raise RuntimeError
  | _ => Raise IndexError
  end.

(** [F.normalize(t)]: [p = 2], [dim = 1], [eps = 1e-12] *)
Definition normalize_eps : R := 1 / 1000000000000.

Definition norm_dim1 (t : Tensor) (n : Z) (b : Z) (r : list Z) : R :=
  sqrt (sum_range n (fun k => dat t (b :: k :: r) * dat t (b :: k :: r))).

Definition normalize (t : Tensor) : Result Tensor :=
  match shape t with
  | B :: n :: rest =>
      OK (mkTensor (shape t)
            (fun idx =>
               match idx with
               | b :: j :: r =>
                   dat t idx / Rmax (norm_dim1 t n b r) normalize_eps
               | _ => 0
               end))
  | _ => Raise IndexError
  end.

End Torch.

Export Torch.

(** ** The warper: [FlowMotionNet.warp] *)

Module Warper.

#[local] Open Scope R_scope.

(** [B, C, H, W = x.size()] *)
Definition size4 (x : Tensor) : Result (Z * Z * Z * Z) :=
  match shape x with
  | [B; C; H; W] => OK (B, C, H, W)
  | _ => Raise ValueError
  end.

(** The mesh grid of lines 255-259: channel 0 holds the column of a pixel,
    channel 1 its row, repeated over the batch. *)
Definition meshgrid (B H W : Z) : Tensor :=
  mkTensor [B; 2%Z; H; W]
    (fun idx =>
       match idx with
       | [b; c; h; w] => if (c =? 0)%Z then IZR w else IZR h
       | _ => 0
       end).

(** Lines 266-267: both channels rescaled to [-1, 1], in place. *)
Definition scale_grid (H W : Z) (vgrid : Tensor) : Tensor :=
  mkTensor (shape vgrid)
    (fun idx =>
       match idx with
       | [b; c; h; w] =>
           if (c =? 0)%Z
           then 2 * dat vgrid idx / IZR (Z.max (W - 1) 1) - 1
           else if (c =? 1)%Z
           then 2 * dat vgrid idx / IZR (Z.max (H - 1) 1) - 1
           else dat vgrid idx
       | _ => dat vgrid idx
       end).

(** Lines 253-269: the sampling grid.  Tensors are taken to live on the
    GPU, the only placement for which [warp] runs ([mask] is created
    there unconditionally). *)
Definition warp_vgrid (x flo : Tensor) : Result Tensor :=
  '(B, C, H, W) ← size4 x;
  let grid := meshgrid B H W in
  vgrid ← add grid flo;
  let vgrid := scale_grid H W vgrid in
  permute_0231 vgrid.

(** Lines 274-275 *)
Definition threshold (mask : Tensor) : Tensor :=
  let mask := masked_fill_lt mask (9999 / 10000) 0 in
  masked_fill_gt mask 0 1.

(** Lines 253-277.  The calls of lines 270 and 272 name no
    [align_corners]: [grid_sample] takes its default, which is [false]
    since version 1.3 of the library and was [true] before. *)
Definition warp (align_corners : bool) (x flo : Tensor) : Result Tensor :=
  vgrid ← warp_vgrid x flo;
  output ← grid_sample align_corners x vgrid;
  let mask := ones (shape x) in
  mask ← grid_sample align_corners mask vgrid;
  let mask := threshold mask in
  mul output mask.

End Warper.

Export Warper.

(** ** The motion head: [MotionNet], numerically *)

Module MotionHead.

#[local] Open Scope R_scope.

(** The state of a [MotionNet] at [forward]: the frame size given to the
    constructor and the four registered sub-modules with their weights.
    [pixel_loc] and [norm_flow] are functions of the frame size. *)
Record MotionNet : Type := mkMotionNet {
  net_H : Z;
  net_W : Z;
  shrink : list Layer;
  conv_layers : list Layer;
  dropout_layers : list Layer;
  last_layer : Linear Tensor
}.

(** Lines 76-81: [pixel_loc[:, i, j] = [j, i]], reshaped to (1, 2, H, W). *)
Definition pixel_loc (H W : Z) : Tensor :=
  mkTensor [1; 2; H; W]%Z
    (fun idx =>
       match idx with
       | [b; c; i; j] => if (c =? 0)%Z then IZR j else IZR i
       | _ => 0
       end).

(** Lines 83-85: [[W/2, H/2, W/2, H/2]], reshaped to (1, 4, 1, 1). *)
Definition norm_flow (H W : Z) : Tensor :=
  mkTensor [1; 4; 1; 1]%Z
    (fun idx =>
       match idx with
       | [b; c; i; j] => if Z.even c then IZR W / 2 else IZR H / 2
       | _ => 0
       end).

(** [x.shape[0]] *)
Definition shape0 (x : Tensor) : Result Z :=
  match shape x with
  | b :: _ => OK b
  | [] => Raise IndexError
  end.

(** Lines 104-117: the six raw regression outputs per batch item. *)
Definition predict (m : MotionNet) (x flow : Tensor) : Result Tensor :=
  batch_size ← shape0 x;
  batch_pixel_loc ← repeat_batch (pixel_loc (net_H m) (net_W m)) batch_size;
  flow_point ← add batch_pixel_loc flow;
  flow_info ← cat2 batch_pixel_loc flow_point;
  flow_info ← sub flow_info (norm_flow (net_H m) (net_W m));
  flow_info ← div flow_info (norm_flow (net_H m) (net_W m));
  x_shrink ← sequential (shrink m) x;
  x_cat ← cat2 x_shrink flow_info;
  conv_result ← sequential (conv_layers m) x_cat;
  conv_result ← view_flat conv_result batch_size;
  conv_result ← mean_dim2 conv_result;
  hidden ← sequential (dropout_layers m) conv_result;
  linear (last_layer m) hidden.

(** Lines 118-121: columns 0..2 copied, columns 3.. normalised. *)
Definition assemble (predict : Tensor) : Result Tensor :=
  let result := zeros (shape predict) in
  head ← slice_cols predict 0 (Some 3%Z);
  result ← set_cols result 0 (Some 3%Z) head;
  tail ← slice_cols predict 3 None;
  tail ← normalize tail;
  set_cols result 3 None tail.

Definition forward (m : MotionNet) (x flow : Tensor) : Result Tensor :=
  p ← predict m x flow;
  assemble p.

End MotionHead.

(** ** The motion decoder: [FlowMotionNet.get_motion] *)

Module MotionDecoder.

#[local] Open Scope R_scope.

(** [cpu_vector[i, lo:hi]], a one-dimensional array *)
Definition row (v : Tensor) (i lo : Z) (len : nat) : list R :=
  map (fun k => dat v [i; (lo + Z.of_nat k)%Z]) (seq 0 len).

(** the two slices [get_motion] reads of batch item [i] *)
Definition rotation_params (v : Tensor) (i : Z) : list R := row v i 0 3.
Definition translation_params (v : Tensor) (i : Z) : list R := row v i 3 3.

(** [np.linalg.norm] of a one-dimensional array *)
Definition l2norm (v : list R) : R :=
  sqrt (fold_right (fun a acc => a * a + acc) 0 v).

(** *** [pyquaternion.Quaternion] *)

Record Quaternion : Type := mkQuaternion { qw : R; qx : R; qy : R; qz : R }.

(** [Quaternion._from_axis_angle]: a zero axis is refused, an axis that is
    not of unit length is scaled to it. *)
Definition from_axis_angle (axis : list R) (angle : R) : Result Quaternion :=
  match axis with
  | [a0; a1; a2] =>
      let mag_sq := a0 * a0 + a1 * a1 + a2 * a2 in
      if bool_decide (mag_sq = 0) then Raise ZeroDivisionError
      else
        let s := if bool_decide (1 / 1000000000000 < Rabs (1 - mag_sq))
                 then sqrt mag_sq else 1 in
        let theta := angle / 2 in
        OK (mkQuaternion (cos theta) (a0 / s * sin theta)
                         (a1 / s * sin theta) (a2 / s * sin theta))
  | _ => Raise ValueError
  end.

(** [Quaternion(axis=..., radians=...)] *)
Definition Quaternion_axis_radians (axis : list R) (radians : R)
    : Result Quaternion :=
  from_axis_angle axis radians.

Definition sum_of_squares (q : Quaternion) : R :=
  qw q * qw q + qx q * qx q + qy q * qy q + qz q * qz q.

(** [Quaternion._normalise] *)
Definition normalise (q : Quaternion) : Quaternion :=
  if bool_decide (Rabs (1 - sum_of_squares q) < 1 / 100000000000000) then q
  else
    let n := sqrt (sum_of_squares q) in
    if bool_decide (0 < n)
    then mkQuaternion (qw q / n) (qx q / n) (qy q / n) (qz q / n)
    else q.

(** [Quaternion.rotation_matrix]: the lower right 3x3 block of the product
    of the two 4x4 matrices of the normalised quaternion. *)
Definition rotation_matrix (q : Quaternion) : list (list R) :=
  let q := normalise q in
  let w := qw q in let x := qx q in let y := qy q in let z := qz q in
  [ [ w * w + x * x - y * y - z * z; 2 * (x * y - w * z); 2 * (x * z + w * y) ];
    [ 2 * (x * y + w * z); w * w - x * x + y * y - z * z; 2 * (y * z - w * x) ];
    [ 2 * (x * z - w * y); 2 * (y * z + w * x); w * w - x * x - y * y + z * z ] ].

Definition entry (m : list (list R)) (r c : Z) : R :=
  nth (Z.to_nat c) (nth (Z.to_nat r) m []) 0.

(** [Rs[i, :, :] = m] *)
Definition set_matrix (Rs : Tensor) (i : Z) (m : list (list R)) : Tensor :=
  mkTensor (shape Rs)
    (fun idx =>
       match idx with
       | [b; r; c] => if (b =? i)%Z then entry m r c else dat Rs idx
       | _ => dat Rs idx
       end).

(** [Ts[i, :, 0] = t]: three values, or one value repeated *)
Definition set_column (Ts : Tensor) (i : Z) (t : list R) : Result Tensor :=
  match t with
  | [_; _; _] | [_] =>
      OK (mkTensor (shape Ts)
            (fun idx =>
               match idx with
               | [b; r; c] =>
                   if ((b =? i) && (c =? 0))%Z
                   then nth (if (length t =? 1)%nat then 0%nat else Z.to_nat r) t 0
                   else dat Ts idx
               | _ => dat Ts idx
               end))
  | _ => Raise ValueError
  end.

(** [for i in range(n): state = body(i, state)] *)
Fixpoint for_range {St : Type} (n : nat) (i : Z)
    (body : Z -> St -> Result St) (s : St) : Result St :=
  match n with
  | O => OK s
  | S k => s' ← body i s; for_range k (i + 1)%Z body s'
  end.

(** one turn of the loop of lines 286-291 *)
Definition decode_item (cpu_vector : Tensor) (ncols : Z) (i : Z)
    (acc : Tensor * Tensor) : Result (Tensor * Tensor) :=
  let '(Rs, Ts) := acc in
  let nrot := Z.to_nat (Z.min 3 ncols) in
  let axis := row cpu_vector i 0 nrot in
  q ← Quaternion_axis_radians axis (l2norm axis);
  let Rs := set_matrix Rs i (rotation_matrix q) in
  Ts ← set_column Ts i (row cpu_vector i 3 (Z.to_nat (ncols - 3)));
  OK (Rs, Ts).

Definition get_motion (predicted_motion : Tensor)
    : Result (Tensor * Tensor) :=
  match shape predicted_motion with
  | [batch_num; ncols] =>
      let Rs := zeros [batch_num; 3; 3]%Z in
      let Ts := zeros [batch_num; 3; 1]%Z in
      for_range (Z.to_nat batch_num) 0
        (decode_item predicted_motion ncols) (Rs, Ts)
  | _ => Raise IndexError
  end.

End MotionDecoder.

(** ** The module tree and its constructors *)

Module Arch.

#[local] Open Scope string_scope.
#[local] Open Scope list_scope.
#[local] Open Scope Z_scope.

(** How a parameter tensor was last initialised.  [DefaultInit] is what
    the layer's own constructor draws. *)
Inductive FanMode : Type := fan_in | fan_out.

Inductive Init : Type :=
| DefaultInit
| KaimingNormal (mode : FanMode)
| Zeros.

#[local] Set Warnings "-register-all".

(** Every object of the module tree of a [FlowMotionNet].
    [CorrelationLayer] and [EpipolarCorrelationLayer] are defined in
    [correlation.py]; only their constructor arguments are kept. *)
Inductive Module : Type :=
| Conv2dM (c : Conv2d Init)
| ConvTranspose2dM (c : Conv2d Init)
| BatchNorm2dM (num_features : Z)
| LeakyReLUM (negative_slope : Q) (inplace : bool)
| LinearM (l : Linear Init)
| UpsamplingBilinear2dM (scale_factor : Z)
| CorrelationLayerM (max_displacement : Z)
| EpipolarCorrelationLayerM (maxd mind : list Z) (H W : Z)
| SequentialM (layers : list Module)
| MotionNetM (H W : Z) (submodules : list (string * Module))
| FlowMotionNetM (submodules : list (string * Module)).

(** [nn.Conv2d(...)], [nn.ConvTranspose2d(...)], [nn.Linear(...)]: fresh
    parameters, a bias only when asked for *)
Definition new_conv (in_planes out_planes kernel_size stride padding dilation : Z)
    (bias : bool) : Conv2d Init :=
  mkConv2d in_planes out_planes kernel_size stride padding dilation
    DefaultInit (if bias then Some DefaultInit else None).

Definition new_linear (input_size output_size : Z) (bias : bool) : Linear Init :=
  mkLinear input_size output_size DefaultInit
    (if bias then Some DefaultInit else None).

(** Lines 8-31 *)
Definition conv_norm (in_planes out_planes kernel_size stride padding dilation : Z)
    (bn : bool) : Module :=
  if bn
  then SequentialM
         [ Conv2dM (new_conv in_planes out_planes kernel_size stride padding
                      dilation false);
           BatchNorm2dM out_planes;
           LeakyReLUM (1 # 10) true ]
  else SequentialM
         [ Conv2dM (new_conv in_planes out_planes kernel_size stride padding
                      dilation true);
           LeakyReLUM (1 # 10) true ].

(** Lines 33-35 *)
Definition predict_flow (in_planes : Z) : Module :=
  Conv2dM (new_conv in_planes 2 3 1 1 1 true).

(** Lines 37-39 *)
Definition deconv (in_planes out_planes kernel_size stride padding : Z) : Module :=
  ConvTranspose2dM (new_conv in_planes out_planes kernel_size stride padding 1 true).

(** *** Python lists on the heap

    A list is passed by reference: a constructor that writes into the
    list it was given writes into the caller's list. *)

Abbreviation loc := positive.
Abbreviation Heap := (gmap loc (list Z)).

(** a constructor call: it may raise, and it may change the heap *)
Definition Ctor (A : Type) : Type := Heap -> Result (A * Heap).

Definition ctor_ret {A : Type} (a : A) : Ctor A := fun h => OK (a, h).

Definition ctor_bind {A B : Type} (m : Ctor A) (f : A -> Ctor B) : Ctor B :=
  fun h =>
    match m h with
    | OK (a, h') => f a h'
    | Raise e => Raise e
    end.

#[export] Instance Ctor_ret : MRet Ctor := @ctor_ret.
#[export] Instance Ctor_bind : MBind Ctor := fun A B f m => ctor_bind m f.

Definition throw {A : Type} (e : exn) : Ctor A := fun _ => Raise e.

(** a list display [[a, b, c]]: a new list object *)
Definition alloc (l : list Z) : Ctor loc :=
  fun h => let r := fresh (dom h) in OK (r, <[r := l]> h).

Definition read (r : loc) : Ctor (list Z) :=
  fun h =>
    match h !! r with
    | Some l => OK (l, h)
    | None => Raise RuntimeError
    end.

(** [r[i]] for [0 <= i] *)
Definition getitem (r : loc) (i : nat) : Ctor Z :=
  l ← read r;
  match l !! i with
  | Some v => mret v
  | None => throw IndexError
  end.

Definition write (r : loc) (l : list Z) : Ctor unit :=
  fun h => OK (tt, <[r := l]> h).

(** [r[i] = v] for [0 <= i] *)
Definition setitem (r : loc) (i : nat) (v : Z) : Ctor unit :=
  l ← read r;
  if bool_decide (i < length l)%nat
  then write r (<[i := v]> l)
  else throw IndexError.

(** [r[-1]] *)
Definition getlast (r : loc) : Ctor Z :=
  l ← read r;
  match last l with
  | Some v => mret v
  | None => throw IndexError
  end.

(** *** [MotionNet] *)

(** Lines 45-64 *)
Definition get_conv_block (input_size output_size : Z) : list Module :=
  [ Conv2dM (new_conv input_size output_size 3 2 1 1 true);
    LeakyReLUM (1 # 10) true;
    Conv2dM (new_conv output_size output_size 3 2 1 1 true);
    LeakyReLUM (1 # 10) true ].

(** Lines 66-70 *)
Definition get_linear_block (input_size output_size : Z) : list Module :=
  [ LinearM (new_linear input_size output_size true);
    LeakyReLUM (1 # 10) true ].

(** [for i in range(len(sizes)-1): layers.extend(block(sizes[i], sizes[i+1]))] *)
Fixpoint blocks (block : Z -> Z -> list Module) (sizes : loc)
    (i : nat) (n : nat) : Ctor (list Module) :=
  match n with
  | O => mret []
  | S k =>
      a ← getitem sizes i;
      b ← getitem sizes (i + 1);
      rest ← blocks block sizes (i + 1) k;
      mret (block a b ++ rest)
  end.

(** Lines 72-101.  [conv_sizes] and [lin_sizes] are the caller's lists.
    The coordinate grid of lines 76-81 needs a frame of non-negative
    size; it is no module and is left out of the tree. *)
Definition MotionNet_init (conv_sizes lin_sizes : loc) (H W : Z) : Ctor Module :=
  _ ← (if bool_decide (0 <= H /\ 0 <= W) then mret tt else throw ValueError);
  c0 ← getitem conv_sizes 0;
  let shrink := conv_norm c0 32 1 1 0 1 false in
  _ ← setitem conv_sizes 0 (32 + 4);
  cs ← read conv_sizes;
  conv_layers ← blocks get_conv_block conv_sizes 0 (length cs - 1);
  ls ← read lin_sizes;
  dropout_layers ← blocks get_linear_block lin_sizes 0 (length ls - 1);
  lin_last ← getlast lin_sizes;
  let last_layer := LinearM (new_linear lin_last 6 true) in
  mret (MotionNetM H W
          [ ("shrink", shrink);
            ("conv_layers", SequentialM conv_layers);
            ("dropout_layers", SequentialM dropout_layers);
            ("last_layer", last_layer) ]).

(** *** [FlowMotionNet] *)

(** [np.cumsum] *)
Fixpoint cumsum_from (acc : Z) (l : list Z) : list Z :=
  match l with
  | [] => []
  | a :: l' => (acc + a) :: cumsum_from (acc + a) l'
  end.

Definition cumsum (l : list Z) : list Z := cumsum_from 0 l.

(** the five convolutions of a decoder and its flow head; [pd] and [dd]
    have five entries each, read at [0..4] *)
Definition decoder (level : string) (od : Z) (pd dd : list Z)
    : list (string * Module) :=
  [ ("conv" +:+ level +:+ "_0", conv_norm od (pd !!! 0%nat) 3 1 1 1 false);
    ("conv" +:+ level +:+ "_1", conv_norm (od + dd !!! 0%nat) (pd !!! 1%nat) 3 1 1 1 false);
    ("conv" +:+ level +:+ "_2", conv_norm (od + dd !!! 1%nat) (pd !!! 2%nat) 3 1 1 1 false);
    ("conv" +:+ level +:+ "_3", conv_norm (od + dd !!! 2%nat) (pd !!! 3%nat) 3 1 1 1 false);
    ("conv" +:+ level +:+ "_4", conv_norm (od + dd !!! 3%nat) (pd !!! 4%nat) 3 1 1 1 false);
    ("predict_flow" +:+ level, predict_flow (od + dd !!! 4%nat)) ].

(** the two modules that hand a level's result to the next finer level *)
Definition upsamplers (level : string) (od : Z) (dd : list Z)
    : list (string * Module) :=
  [ ("deconv" +:+ level, UpsamplingBilinear2dM 2);
    ("upfeat" +:+ level, deconv (od + dd !!! 4%nat) 2 4 2 1) ].

(** the three convolutions of a pyramid level *)
Definition pyramid_level (level : string) (c_in c_out : Z)
    : list (string * Module) :=
  [ ("conv" +:+ level +:+ "a", conv_norm c_in c_out 3 2 1 1 true);
    ("conv" +:+ level +:+ "aa", conv_norm c_out c_out 3 1 1 1 true);
    ("conv" +:+ level +:+ "b", conv_norm c_out c_out 3 1 1 1 true) ].

(** Lines 134-239: the sub-modules in the order they are registered *)
Definition FlowMotionNet_build (md : Z) : Ctor (list (string * Module)) :=
  let pyramid :=
    pyramid_level "1" 3 16 ++ pyramid_level "2" 16 32
    ++ pyramid_level "3" 32 64 ++ pyramid_level "4" 64 96
    ++ pyramid_level "5" 96 128 in
  let corr := [ ("corr", CorrelationLayerM 4);
                ("leakyRELU", LeakyReLUM (1 # 10) true) ] in
  let nd := (2 * md + 1) ^ 2 in
  let pd := [128; 96; 64; 32; 32] in
  let dd := cumsum pd in
  let od := nd + 128 in
  let level5 := decoder "5" od pd dd ++ upsamplers "5" od dd in
  let od := nd + 96 + 4 in
  let level4 := decoder "4" od pd dd ++ upsamplers "4" od dd in
  let od := nd + 64 + 4 in
  let level3 := decoder "3" od pd dd ++ upsamplers "3" od dd in
  conv_sizes ← alloc [od + dd !!! 4%nat; 64; 128; 256];
  lin_sizes ← alloc [256; 256; 256];
  motion_3 ← MotionNet_init conv_sizes lin_sizes 32 40;
  let epi_corr2 :=
    [ ("epi_corr2", EpipolarCorrelationLayerM (seqZ (-4) 9) (seqZ (-2) 5) 64 80) ] in
  let nd := (4 * 2 + 1) * (2 * 2 + 1) + 4 in
  let od := nd + 32 + 4 in
  let pd := [96; 64; 64; 32; 32] in
  let dd := cumsum pd in
  let level2 := decoder "2" od pd dd ++ upsamplers "2" od dd in
  conv_sizes ← alloc [od + dd !!! 4%nat; 64; 128; 256; 512];
  lin_sizes ← alloc [512; 256; 256];
  motion_2 ← MotionNet_init conv_sizes lin_sizes 64 80;
  let epi_corr1 :=
    [ ("epi_corr1", EpipolarCorrelationLayerM (seqZ (-3) 7) (seqZ (-1) 3) 128 160) ] in
  let nd := (3 * 2 + 1) * (1 * 2 + 1) + 4 in
  let od := nd + 16 + 4 in
  let pd := [64; 64; 64; 32; 32] in
  let dd := cumsum pd in
  let level1 := decoder "1" od pd dd in
  conv_sizes ← alloc [od + dd !!! 4%nat; 64; 128; 256; 512; 512];
  lin_sizes ← alloc [512; 256; 256];
  motion_1 ← MotionNet_init conv_sizes lin_sizes 128 160;
  mret (pyramid ++ corr ++ level5 ++ level4 ++ level3
        ++ [("motion_3", motion_3)] ++ epi_corr2 ++ level2
        ++ [("motion_2", motion_2)] ++ epi_corr1 ++ level1
        ++ [("motion_1", motion_1)]).

(** [self.modules()]: the module itself, then the modules of its children *)
Fixpoint modules (m : Module) : list Module :=
  m :: match m with
       | SequentialM layers => flat_map modules layers
       | MotionNetM _ _ subs => flat_map (fun '(_, c) => modules c) subs
       | FlowMotionNetM subs => flat_map (fun '(_, c) => modules c) subs
       | _ => []
       end.

(** Lines 242-245, the body of the loop: what it does to one module *)
Definition kaiming_init (c : Conv2d Init) : Conv2d Init :=
  mkConv2d (in_channels c) (out_channels c) (kernel_size c) (stride c)
    (padding c) (dilation c)
    (KaimingNormal fan_in)
    (match bias c with Some _ => Some Zeros | None => None end).

Definition init_module (m : Module) : Module :=
  match m with
  | Conv2dM c => Conv2dM (kaiming_init c)
  | ConvTranspose2dM c => ConvTranspose2dM (kaiming_init c)
  | _ => m
  end.

(** Lines 241-245: the loop visits every module of the tree and updates
    it in place, so the tree afterwards is the tree with [init_module]
    applied at every node. *)
Fixpoint init_weights (m : Module) : Module :=
  match m with
  | SequentialM layers => SequentialM (map init_weights layers)
  | MotionNetM H W subs =>
      MotionNetM H W (map (fun '(n, c) => (n, init_weights c)) subs)
  | FlowMotionNetM subs =>
      FlowMotionNetM (map (fun '(n, c) => (n, init_weights c)) subs)
  | _ => init_module m
  end.

(** [FlowMotionNet(md)] *)
Definition FlowMotionNet_init (md : Z) : Ctor Module :=
  subs ← FlowMotionNet_build md;
  mret (init_weights (FlowMotionNetM subs)).

(** [self.<name>] *)
Fixpoint getattr (subs : list (string * Module)) (name : string) : Result Module :=
  match subs with
  | [] => Raise AttributeError
  | (n, m) :: rest => if String.eqb n name then OK m else getattr rest name
  end.

(** [net.<name>] *)
Definition submodule (net : Module) (name : string) : Result Module :=
  match net with
  | FlowMotionNetM subs | MotionNetM _ _ subs => getattr subs name
  | _ => Raise AttributeError
  end.

End Arch.

(** ** The pipeline: [FlowMotionNet.forward]

    [forward] is written once, over the operations it performs on
    tensors, and read twice: over tensor shapes ([Shapes]), and as the
    data-flow graph it builds ([Graph]). *)

Module Pipeline.

#[local] Open Scope string_scope.
#[local] Open Scope list_scope.
#[local] Open Scope Z_scope.

Class TensorOps (M : Type -> Type) (T : Type) : Type := {
  (** [t[:, lo:hi, :, :]] *)
  slice_channels : T -> option Z -> option Z -> M T;
  (** [self.<name>(args)] *)
  call : string -> list T -> M T;
  (** [torch.cat(ts, 1)] *)
  cat : list T -> M T;
  (** [t * c] *)
  mul_scalar : T -> Q -> M T;
  (** [self.warp(x, flo)] *)
  warp : T -> T -> M T;
  (** [self.get_motion(predicted_motion)] *)
  get_motion : T -> M (T * T)%type;
  (** [self.<name> = t] *)
  setattr : string -> T -> M unit
}.

Section Forward.

Context {M : Type -> Type} {T : Type}.
Context `{!MBind M, !MRet M, !TensorOps M T}.

(** [self.c(self.b(self.a(t)))] *)
Definition call3 (a b c : string) (t : T) : M T :=
  t ← call a [t]; t ← call b [t]; call c [t].

(** [x = torch.cat((self.<name>(x), x), 1)] *)
Definition grow (name : string) (x : T) : M T :=
  y ← call name [x]; cat [y; x].

(** Lines 296-380 *)
Definition forward (x : T) : M (list T * list T)%type :=
  im1 ← slice_channels x None (Some 3);
  im2 ← slice_channels x (Some 3) None;

  c11 ← call3 "conv1a" "conv1aa" "conv1b" im1;
  c21 ← call3 "conv1a" "conv1aa" "conv1b" im2;
  c12 ← call3 "conv2a" "conv2aa" "conv2b" c11;
  c22 ← call3 "conv2a" "conv2aa" "conv2b" c21;
  c13 ← call3 "conv3a" "conv3aa" "conv3b" c12;
  c23 ← call3 "conv3a" "conv3aa" "conv3b" c22;
  c14 ← call3 "conv4a" "conv4aa" "conv4b" c13;
  c24 ← call3 "conv4a" "conv4aa" "conv4b" c23;
  c15 ← call3 "conv5a" "conv5aa" "conv5b" c14;
  c25 ← call3 "conv5a" "conv5aa" "conv5b" c24;

  corr5 ← call "corr" [c15; c25];
  corr5 ← call "leakyRELU" [corr5];
  x ← cat [corr5; c15];
  x ← grow "conv5_0" x;
  x ← grow "conv5_1" x;
  x ← grow "conv5_2" x;
  x ← grow "conv5_3" x;
  x ← grow "conv5_4" x;
  flow5 ← call "predict_flow5" [x];
  up_flow5 ← (t ← call "deconv5" [flow5]; mul_scalar t 2);
  up_feat5 ← call "upfeat5" [x];

  warp4 ← warp c24 up_flow5;
  corr4 ← call "corr" [c14; warp4];
  corr4 ← call "leakyRELU" [corr4];
  x ← cat [corr4; c14; up_flow5; up_feat5];
  x ← grow "conv4_0" x;
  x ← grow "conv4_1" x;
  x ← grow "conv4_2" x;
  x ← grow "conv4_3" x;
  x ← grow "conv4_4" x;
  flow4 ← call "predict_flow4" [x];
  up_flow4 ← (t ← call "deconv4" [flow4]; mul_scalar t 2);
  up_feat4 ← call "upfeat4" [x];

  warp3 ← warp c23 up_flow4;
  corr3 ← call "corr" [c13; warp3];
  corr3 ← call "leakyRELU" [corr3];

  x ← cat [corr3; c13; up_flow4; up_feat4];
  x ← grow "conv3_0" x;
  x ← grow "conv3_1" x;
  x ← grow "conv3_2" x;
  x ← grow "conv3_3" x;
  x ← grow "conv3_4" x;
  flow3 ← call "predict_flow3" [x];
  up_flow3 ← (t ← call "deconv3" [flow3]; mul_scalar t 2);
  up_feat3 ← call "upfeat3" [x];
  predicted_motion3 ← call "motion_3" [x; flow3];
  '(Rs3, Ts3) ← get_motion predicted_motion3;

  corr2 ← call "epi_corr2" [c12; c22; Rs3; Ts3; up_flow3];
  corr2 ← call "leakyRELU" [corr2];
  x ← cat [corr2; c12; up_flow3; up_feat3];
  x ← grow "conv2_0" x;
  x ← grow "conv2_1" x;
  x ← grow "conv2_2" x;
  x ← grow "conv2_3" x;
  x ← grow "conv2_4" x;
  flow2 ← call "predict_flow2" [x];
  up_flow2 ← (t ← call "deconv2" [flow2]; mul_scalar t 2);
  up_feat2 ← call "upfeat2" [x];
  predicted_motion2 ← call "motion_2" [x; flow2];
  '(Rs2, Ts2) ← get_motion predicted_motion2;

  corr1 ← call "epi_corr1" [c11; c21; Rs2; Ts2; up_flow2];
  corr1 ← call "leakyRELU" [corr1];
  x ← cat [corr1; c11; up_flow2; up_feat2];
  x ← grow "conv1_0" x;
  x ← grow "conv1_1" x;
  x ← grow "conv1_2" x;
  x ← grow "conv1_3" x;
  x ← grow "conv1_4" x;
  _ ← setattr "last_layer" x;
  flow1 ← call "predict_flow1" [x];
  predicted_motion1 ← call "motion_1" [x; flow1];

  let flows := [flow1; flow2; flow3; flow4; flow5] in
  let motions := [predicted_motion1; predicted_motion2; predicted_motion3] in
  mret (flows, motions).

End Forward.

End Pipeline.

(** ** [forward] over tensor shapes

    Every operation checks the shapes of its arguments as the library
    does and returns the shape of its result.  Values are not tracked:
    [get_motion] is taken on motion vectors whose rotation part is not
    zero. *)

Module Shapes.

Import Arch Pipeline.

#[local] Open Scope string_scope.
#[local] Open Scope list_scope.
#[local] Open Scope Z_scope.

Abbreviation Shape := (list Z).

Definition conv_shape (c : Conv2d Init) (s : Shape) : Result Shape :=
  match s with
  | [B; C; H; W] =>
      let k := kernel_size c in
      let p := padding c in
      let d := dilation c in
      let span := d * (k - 1) + 1 in
      if bool_decide (C = in_channels c /\ span <= H + 2 * p /\ span <= W + 2 * p)
      then OK [B; out_channels c;
               conv_out H k (stride c) p d; conv_out W k (stride c) p d]
      else Raise RuntimeError
  | _ => Raise RuntimeError
  end.

(** the output extent of a transposed convolution along one axis *)
Definition deconv_out (size k s p d : Z) : Z :=
  (size - 1) * s - 2 * p + d * (k - 1) + 1.

Definition conv_transpose_shape (c : Conv2d Init) (s : Shape) : Result Shape :=
  match s with
  | [B; C; H; W] =>
      if bool_decide (C = in_channels c)
      then OK [B; out_channels c;
               deconv_out H (kernel_size c) (stride c) (padding c) (dilation c);
               deconv_out W (kernel_size c) (stride c) (padding c) (dilation c)]
      else Raise RuntimeError
  | _ => Raise RuntimeError
  end.

Definition batch_norm_shape (num_features : Z) (s : Shape) : Result Shape :=
  match s with
  | [B; C; H; W] =>
      if bool_decide (C = num_features) then OK s else Raise RuntimeError
  | _ => Raise ValueError
  end.

Definition upsample_shape (scale_factor : Z) (s : Shape) : Result Shape :=
  match s with
  | [B; C; H; W] => OK [B; C; H * scale_factor; W * scale_factor]
  | _ => Raise RuntimeError
  end.

Definition linear_shape (l : Linear Init) (s : Shape) : Result Shape :=
  match rev s with
  | n :: pre =>
      if bool_decide (n = in_features l)
      then OK (rev pre ++ [out_features l])
      else Raise RuntimeError
  | [] => Raise RuntimeError
  end.

(** Modelled from the spec: [CorrelationLayer] is defined in
    [correlation.py].  Two feature maps of identical shape (B,C,H,W) give a
    tensor (B,(2d+1)^2,H,W), d the maximum displacement. *)
Definition corr_shape (d : Z) (args : list Shape) : Result Shape :=
  match args with
  | [ [B; C; H; W]; s2 ] =>
      if bool_decide (s2 = [B; C; H; W])
      then OK [B; (2 * d + 1) ^ 2; H; W]
      else Raise RuntimeError
  | _ => Raise RuntimeError
  end.

(** Modelled from the spec: [EpipolarCorrelationLayer] is defined in
    [correlation.py].  Two feature maps, a batch of rotation matrices, a
    batch of translation vectors and a flow field give one channel per
    displacement of the window, plus 4 auxiliary channels. *)
Definition epi_corr_shape (maxd mind : list Z) (args : list Shape)
    : Result Shape :=
  match args with
  | [ [B; C; H; W]; s2; Rs; Ts; flow ] =>
      if bool_decide (s2 = [B; C; H; W] /\ Rs = [B; 3; 3] /\ Ts = [B; 3; 1]
                      /\ flow = [B; 2; H; W])
      then OK [B; Z.of_nat (length maxd) * Z.of_nat (length mind) + 4; H; W]
      else Raise RuntimeError
  | _ => Raise RuntimeError
  end.

Definition cat2_shape (s t : Shape) : Result Shape :=
  match s, t with
  | B :: C1 :: r1, B' :: C2 :: r2 =>
      if bool_decide (B = B' /\ r1 = r2)
      then OK (B :: (C1 + C2) :: r1)
      else Raise RuntimeError
  | _, _ => Raise RuntimeError
  end.

Fixpoint cat_onto (acc : Shape) (ts : list Shape) : Result Shape :=
  match ts with
  | [] => OK acc
  | t :: ts' => acc' ← cat2_shape acc t; cat_onto acc' ts'
  end.

Definition cat_shape (ts : list Shape) : Result Shape :=
  match ts with
  | [] => Raise RuntimeError
  | t :: ts' => cat_onto t ts'
  end.

Definition slice_shape (s : Shape) (lo hi : option Z) : Result Shape :=
  match s with
  | B :: n :: rest =>
      let '(lo', hi') := slice_bounds n (default 0 lo) hi in
      OK (B :: (hi' - lo') :: rest)
  | _ => Raise IndexError
  end.

(** [FlowMotionNet.warp], lines 253-277 *)
Definition grid_sample_shape (input grid : Shape) : Result Shape :=
  match input, grid with
  | [N; C; H; W], [N'; Ho; Wo; two] =>
      if bool_decide (N = N' /\ two = 2 /\ 0 < H /\ 0 < W)
      then OK [N; C; Ho; Wo]
      else Raise RuntimeError
  | _, _ => Raise RuntimeError
  end.

Definition warp_shape (x flo : Shape) : Result Shape :=
  match x with
  | [B; C; H; W] =>
      vgrid ← broadcast_shapes [B; 2; H; W] flo;
      match vgrid with
      | [b; c; h; w] =>
          output ← grid_sample_shape x [b; h; w; c];
          mask ← grid_sample_shape x [b; h; w; c];
          broadcast_shapes output mask
      | _ => Raise RuntimeError
      end
  | _ => Raise ValueError
  end.

(** [FlowMotionNet.get_motion], lines 279-294 *)
Definition get_motion_shape (pm : Shape) : Result (Shape * Shape) :=
  match pm with
  | [B; n] =>
      if bool_decide (B <= 0) then OK ([B; 3; 3], [B; 3; 1])
      else if bool_decide (n < 3) then Raise ValueError
      else if bool_decide (n - 3 = 3 \/ n - 3 = 1)
      then OK ([B; 3; 3], [B; 3; 1])
      else Raise ValueError
  | _ => Raise IndexError
  end.

(** [MotionNet.forward], lines 103-121; [sub] calls a sub-module *)
Definition motion_shape (H W : Z)
    (sub : string -> list Shape -> Result Shape) (args : list Shape)
    : Result Shape :=
  match args with
  | [x; flow] =>
      match x with
      | batch_size :: _ =>
          let batch_pixel_loc := [batch_size * 1; 2; H; W] in
          flow_point ← broadcast_shapes batch_pixel_loc flow;
          flow_info ← cat_shape [batch_pixel_loc; flow_point];
          flow_info ← broadcast_shapes flow_info [1; 4; 1; 1];
          flow_info ← broadcast_shapes flow_info [1; 4; 1; 1];
          x_shrink ← sub "shrink" [x];
          x_cat ← cat_shape [x_shrink; flow_info];
          conv_result ← sub "conv_layers" [x_cat];
          match conv_result with
          | [B; C; Hc; Wc] =>
              if bool_decide (batch_size = B /\ B * C <> 0)
              then
                hidden ← sub "dropout_layers" [ [B; C] ];
                predict ← sub "last_layer" [hidden];
                match predict with
                | _ :: _ :: _ => OK predict
                | _ => Raise IndexError
                end
              else Raise RuntimeError
          | _ => Raise RuntimeError
          end
      | [] => Raise IndexError
      end
  | _ => Raise RuntimeError
  end.

(** [self.<name>(args)] among named sub-modules already given a meaning *)
Fixpoint call_named (subs : list (string * (list Shape -> Result Shape)))
    (name : string) (args : list Shape) : Result Shape :=
  match subs with
  | [] => Raise AttributeError
  | (n, f) :: rest =>
      if String.eqb n name then f args else call_named rest name args
  end.

(** [m(args)] *)
Fixpoint module_shape (m : Module) (args : list Shape) : Result Shape :=
  match m, args with
  | Conv2dM c, [s] => conv_shape c s
  | ConvTranspose2dM c, [s] => conv_transpose_shape c s
  | BatchNorm2dM n, [s] => batch_norm_shape n s
  | LeakyReLUM _ _, [s] => OK s
  | LinearM l, [s] => linear_shape l s
  | UpsamplingBilinear2dM k, [s] => upsample_shape k s
  | CorrelationLayerM d, _ => corr_shape d args
  | EpipolarCorrelationLayerM maxd mind _ _, _ => epi_corr_shape maxd mind args
  | SequentialM layers, [s] =>
      (fix run (ls : list Module) (s : Shape) : Result Shape :=
         match ls with
         | [] => OK s
         | l :: ls' => s' ← module_shape l [s]; run ls' s'
         end) layers s
  | MotionNetM H W subs, _ =>
      motion_shape H W
        (call_named (map (fun '(n, c) => (n, module_shape c)) subs)) args
  | _, _ => Raise RuntimeError
  end.

(** A pass over the shapes keeps a log: the shape of the input, then the
    shape of the result of every operation, in the order of execution
    ([get_motion] has two results, an assignment logs what it stores). *)
Definition Logged (A : Type) : Type := list Shape -> Result (A * list Shape).

#[export] Instance Logged_ret : MRet Logged := fun A a log => OK (a, log).

#[export] Instance Logged_bind : MBind Logged :=
  fun A B (f : A -> Logged B) (m : Logged A) log =>
    match m log with
    | OK (a, log') => f a log'
    | Raise e => Raise e
    end.

Definition logged (r : Result Shape) : Logged Shape :=
  fun log =>
    match r with
    | OK s => OK (s, log ++ [s])
    | Raise e => Raise e
    end.

(** the operations of [forward] on the shapes, for a network [net] *)
Definition shape_ops (net : Module) : TensorOps Logged Shape := {|
  slice_channels := fun s lo hi => logged (slice_shape s lo hi);
  call := fun name args =>
    logged (m ← submodule net name; module_shape m args);
  cat := fun ts => logged (cat_shape ts);
  mul_scalar := fun s _ => logged (OK s);
  warp := fun x flo => logged (warp_shape x flo);
  get_motion := fun pm log =>
    match get_motion_shape pm with
    | OK (Rs, Ts) => OK ((Rs, Ts), log ++ [Rs; Ts])
    | Raise e => Raise e
    end;
  setattr := fun _ s log => OK (tt, log ++ [s])
|}.

Definition forward_shapes (net : Module) (x : Shape)
    : Result ((list Shape * list Shape) * list Shape) :=
  @forward Logged Shape _ _ (shape_ops net) x [x].

(** the network a default construction builds *)
Definition FlowMotionNet_tree (md : Z) : Module :=
  match FlowMotionNet_init md ∅ with
  | OK (net, _) => net
  | Raise _ => FlowMotionNetM []
  end.

(** the number of channels of the tensor logged at position [i] *)
Definition channels (log : list Shape) (i : nat) : Z :=
  match log !! i with
  | Some (_ :: c :: _) => c
  | _ => 0
  end.

End Shapes.

(** ** [forward] as a data-flow graph

    Every operation appends a node to the graph: what was done, and to
    which earlier nodes.  A tensor is the number of the node that made
    it; node 0 is the input. *)

Module Graph.

Import Pipeline.

#[local] Open Scope string_scope.
#[local] Open Scope list_scope.

Inductive Op : Type :=
| Input
| Slice (lo hi : option Z)
| Call (name : string)
| Cat
| MulScalar (c : Q)
| Warp
| GetMotionRs
| GetMotionTs
| SetAttr (name : string).

Record Node : Type := mkNode { op : Op; args : list nat }.

Definition Trace (A : Type) : Type := list Node -> A * list Node.

#[export] Instance Trace_ret : MRet Trace := fun A a g => (a, g).

#[export] Instance Trace_bind : MBind Trace :=
  fun A B (f : A -> Trace B) (m : Trace A) g =>
    let '(a, g') := m g in f a g'.

Definition emit (o : Op) (xs : list nat) : Trace nat :=
  fun g => (length g, g ++ [mkNode o xs]).

#[export] Instance graph_ops : TensorOps Trace nat := {|
  slice_channels := fun t lo hi => emit (Slice lo hi) [t];
  call := fun name xs => emit (Call name) xs;
  cat := fun xs => emit Cat xs;
  mul_scalar := fun t c => emit (MulScalar c) [t];
  warp := fun x flo => emit Warp [x; flo];
  get_motion := fun pm =>
    r ← emit GetMotionRs [pm]; t ← emit GetMotionTs [pm]; mret (r, t);
  setattr := fun name t => _ ← emit (SetAttr name) [t]; mret tt
|}.

(** the graph of one [forward] pass *)
Definition forward_graph : (list nat * list nat) * list Node :=
  @forward Trace nat _ _ graph_ops 0%nat [mkNode Input []].

(** the nodes that read node [t], by number *)
Definition consumers (g : list Node) (t : nat) : list nat :=
  map fst (filter (fun '(_, n) => t ∈ args n) (imap (fun i n => (i, n)) g)).

Definition the_graph : list Node := forward_graph.2.

(** node [y] is [self.c(self.b(self.a(x)))] *)
Definition chain3 (g : list Node) (a b c : string) (x y : nat) : Prop :=
  exists t1 t2,
    g !! t1 = Some (mkNode (Call a) [x]) /\
    g !! t2 = Some (mkNode (Call b) [t1]) /\
    g !! y = Some (mkNode (Call c) [t2]).

End Graph.

(** * Vocabulary of the properties

    What the statements below say about a constructed network and about a
    run of [forward]. *)

Module Describe.

Import Arch Pipeline Shapes Graph.

(** a convolution (transposed or not) after the loop of lines 241-245 *)
Definition initialised (m : Module) : Prop :=
  match m with
  | Conv2dM c | ConvTranspose2dM c =>
      weight c = KaimingNormal fan_in /\
      forall b, bias c = Some b -> b = Zeros
  | _ => True
  end.

Definition is_conv (m : Module) : bool :=
  match m with Conv2dM _ | ConvTranspose2dM _ => true | _ => false end.


(** the blocks that the loops of lines 92-93 and 97-98 build from a list *)
Fixpoint block_list (block : Z -> Z -> list Module) (l : list Z)
    (i n : nat) : list Module :=
  match n with
  | O => []
  | S k => block (l !!! i) (l !!! (i + 1)%nat) ++ block_list block l (i + 1) k
  end.

(** the module a [MotionNet] call builds from the contents of its lists *)
Definition MotionNet_tree (c0 : Z) (cs ls : list Z) (H W : Z) : Module :=
  MotionNetM H W
    [ ("shrink"%string, conv_norm c0 32 1 1 0 1 false);
      ("conv_layers"%string,
       SequentialM (block_list get_conv_block (36 :: cs) 0 (length cs)));
      ("dropout_layers"%string,
       SequentialM (block_list get_linear_block ls 0 (length ls - 1)));
      ("last_layer"%string, LinearM (new_linear (default 0 (last ls)) 6 true)) ].

Definition net4 : Module := Eval vm_compute in FlowMotionNet_tree 4.

(** the run on one image pair of 256 x 320, without the batch dimension *)
Definition item_run : (list Shape * list Shape) * list Shape :=
  Eval vm_compute in
    match forward_shapes net4 [1; 6; 256; 320] with
    | OK (flows, motions, log) => (tail <$> flows, tail <$> motions, tail <$> log)
    | Raise _ => ([], [], [])
    end.

#[local] Open Scope string_scope.

(** a pyramid layer after construction: a convolution without bias, batch
    normalisation, LeakyReLU(0.1) *)
Definition conv_bn_relu (c_in c_out stride : Z) : Module :=
  SequentialM
    [ Conv2dM (mkConv2d c_in c_out 3 stride 1 1 (KaimingNormal fan_in) None);
      BatchNorm2dM c_out;
      LeakyReLUM (1 # 10) true ].

(** a decoder layer after construction: a convolution with bias, LeakyReLU(0.1) *)
Definition conv_relu (c_in c_out : Z) : Module :=
  SequentialM
    [ Conv2dM (mkConv2d c_in c_out 3 1 1 1 (KaimingNormal fan_in) (Some Zeros));
      LeakyReLUM (1 # 10) true ].

(** the three layers of pyramid level [l] *)
Definition pyramid_layers (net : Module) (l : string) (c_in c_out : Z) : Prop :=
  submodule net ("conv" +:+ l +:+ "a") = OK (conv_bn_relu c_in c_out 2) /\
  submodule net ("conv" +:+ l +:+ "aa") = OK (conv_bn_relu c_out c_out 1) /\
  submodule net ("conv" +:+ l +:+ "b") = OK (conv_bn_relu c_out c_out 1).

(** one stage of a decoder: [x' = torch.cat((self.<name>(x), x), 1)], and
    [x'] has more channels than [x] *)
Definition dense_stage (g : list Node) (log : list Shape) (name : string)
    (x x' : nat) : Prop :=
  exists y,
    g !! y = Some (mkNode (Call name) [x]) /\
    g !! x' = Some (mkNode Cat [y; x]) /\
    channels log x < channels log x'.

(** the decoder of level [L]: five stages, then the flow head *)
Definition dense_decoder (net : Module) (g : list Node) (log : list Shape)
    (L : string) : Prop :=
  exists x0 x1 x2 x3 x4 x5 flow : nat,
    dense_stage g log ("conv" +:+ L +:+ "_0") x0 x1 /\
    dense_stage g log ("conv" +:+ L +:+ "_1") x1 x2 /\
    dense_stage g log ("conv" +:+ L +:+ "_2") x2 x3 /\
    dense_stage g log ("conv" +:+ L +:+ "_3") x3 x4 /\
    dense_stage g log ("conv" +:+ L +:+ "_4") x4 x5 /\
    g !! flow = Some (mkNode (Call ("predict_flow" +:+ L)) [x5]) /\
    Forall (fun i => exists c_in c_out,
              submodule net ("conv" +:+ L +:+ "_" +:+ i) = OK (conv_relu c_in c_out))
           ["0"; "1"; "2"; "3"; "4"] /\
    submodule net ("predict_flow" +:+ L)
      = OK (Conv2dM (mkConv2d (channels log x5) 2 3 1 1 1
                       (KaimingNormal fan_in) (Some Zeros))) /\
    channels log flow = 2 /\
    Forall (fun i => op <$> g !! i <> Some (Call "leakyRELU")) (consumers g flow).

(** the flow of level [L] on its way to the next finer level: upsampled,
    doubled, and only then read by the operations [uses] *)
Definition handed_down (net : Module) (g : list Node) (log : list Shape)
    (L : string) (uses : list Op) : Prop :=
  exists x flow up up_flow : nat, exists b H W : Z,
    g !! flow = Some (mkNode (Call ("predict_flow" +:+ L)) [x]) /\
    g !! up = Some (mkNode (Call ("deconv" +:+ L)) [flow]) /\
    submodule net ("deconv" +:+ L) = OK (UpsamplingBilinear2dM 2) /\
    g !! up_flow = Some (mkNode (MulScalar 2) [up]) /\
    Forall (fun i => i = up \/ op <$> g !! i = Some (Call ("motion_" +:+ L)))
           (consumers g flow) /\
    consumers g up = [up_flow] /\
    (fun i => op <$> g !! i) <$> consumers g up_flow = Some <$> uses /\
    log !! flow = Some [b; 2; H; W] /\
    log !! up_flow = Some [b; 2; 2 * H; 2 * W].












End Describe.

(** * Vocabulary of the numerical properties *)

Module Geometry.

#[local] Open Scope R_scope.

(** The point of the input image, in pixel coordinates, that [warp] samples
    for the output pixel (h, w) of batch item [n]: the grid of lines
    263-267, read back by [grid_sample]. *)
Definition sample_x (align_corners : bool) (W : Z) (flo : Tensor)
    (n h w : Z) : R :=
  unnormalize align_corners W
    (2 * (IZR w + dat flo [n; 0%Z; h; w]) / IZR (Z.max (W - 1) 1) - 1).

Definition sample_y (align_corners : bool) (H : Z) (flo : Tensor)
    (n h w : Z) : R :=
  unnormalize align_corners H
    (2 * (IZR h + dat flo [n; 1%Z; h; w]) / IZR (Z.max (H - 1) 1) - 1).

(** bilinear interpolation of channel [c] of item [n] at the point
    (ix, iy), pixels outside the image counting as zero *)
Definition interpolate (input : Tensor) (n c : Z) (ix iy : R) : R :=
  let x0 := Zfloor ix in
  let y0 := Zfloor iy in
  let x1 := (x0 + 1)%Z in
  let y1 := (y0 + 1)%Z in
  pixel input n c y0 x0 * ((IZR x1 - ix) * (IZR y1 - iy))
  + pixel input n c y0 x1 * ((ix - IZR x0) * (IZR y1 - iy))
  + pixel input n c y1 x0 * ((IZR x1 - ix) * (iy - IZR y0))
  + pixel input n c y1 x1 * ((ix - IZR x0) * (iy - IZR y0)).

(** the share of the two neighbours of the coordinate [i] that lies
    within [0, size) *)
Definition inside_weight (size : Z) (i : R) : R :=
  let i0 := Zfloor i in
  (if bool_decide (0 <= i0 < size)%Z then IZR (i0 + 1) - i else 0)
  + (if bool_decide (0 <= i0 + 1 < size)%Z then i - IZR i0 else 0).



End Geometry.

(** * Concrete inputs *)

Module Examples.

Import MotionHead.

(** the lists of the call that builds [motion_3] *)
Definition motion_3_lists : Arch.Heap :=
  {[ 1%positive := [501; 64; 128; 256]; 2%positive := [256; 256; 256] ]}.

#[local] Open Scope R_scope.

(** a one-row image of two pixels, and a flow that moves the sample of the
    right pixel a ten-thousandth of a pixel past the border *)
Definition x_pair : Tensor :=
  mkTensor [1; 1; 1; 2]%Z
    (fun idx => if bool_decide (idx = [0; 0; 0; 1]%Z) then 7 else 5).

Definition flo_edge : Tensor :=
  mkTensor [1; 2; 1; 2]%Z
    (fun idx => if bool_decide (idx = [0; 0; 0; 1]%Z) then (1 / 10000) else 0).

(** the same situation for the other convention of [grid_sample]: a 2 x 2
    image, and a flow that puts the sample of the upper right pixel on its
    own row and a ten-thousandth of a pixel past the border *)
Definition x_quad : Tensor :=
  mkTensor [1; 1; 2; 2]%Z
    (fun idx => if bool_decide (idx = [0; 0; 0; 1]%Z) then 7 else 5).

Definition flo_quad : Tensor :=
  mkTensor [1; 2; 2; 2]%Z
    (fun idx => if bool_decide (idx = [0; 0; 0; 1]%Z) then - (24995 / 100000)
                else if bool_decide (idx = [0; 1; 0; 1]%Z) then 1 / 4 else 0).

(** [warp x flo] keeps the pixel at [idx], whose sampled mask value is
    0.9999 and no more; the value kept is that of the examples, 7 * 0.9999 *)
Definition kept_at_threshold (align_corners : bool) (x flo : Tensor)
    (idx : list Z) : Prop :=
  exists out vgrid smask,
    warp align_corners x flo = OK out /\
    warp_vgrid x flo = OK vgrid /\
    grid_sample align_corners (ones (shape x)) vgrid = OK smask /\
    valid_index (shape out) idx /\
    dat smask idx = 9999 / 10000 /\
    ~ (9999 / 10000 < dat smask idx) /\
    dat (threshold smask) idx = 1 /\
    dat out idx = 7 * (9999 / 10000) /\
    dat out idx <> 0.

(** [MotionNet(conv_sizes=[1], lin_sizes=[36], H=1, W=1)] with all
    convolution and linear weights zero and the last bias (3,0,0,0,0,2) *)
Definition sample_head : MotionNet :=
  mkMotionNet 1 1
    [Conv2dL (mkConv2d 1 32 1 1 0 1 (zeros [32; 1; 1; 1]%Z) (Some (zeros [32%Z])));
     LeakyReLUL (1 / 10)]
    [] []
    (mkLinear 36 6 (zeros [6; 36]%Z)
       (Some (mkTensor [6%Z]
                (fun idx => if bool_decide (idx = [0%Z]) then 3
                            else if bool_decide (idx = [5%Z]) then 2 else 0)))).

(** a batch of one motion vector: no rotation, translation along z *)
Definition still_motion : Tensor :=
  mkTensor [1; 6]%Z (fun idx => if bool_decide (idx = [0; 5]%Z) then 1 else 0).




End Examples.

(** * Properties of the numerical view *)

Import MotionHead MotionDecoder Geometry Examples.

(** evaluate the closed integer expressions under [IZR] *)
Ltac IZR_compute :=
  repeat match goal with
  | |- context [IZR ?z] =>
      lazymatch z with
      | Z0 => fail | Zpos _ => fail | Zneg _ => fail
      | _ => let v := eval vm_compute in z in change (IZR z) with (IZR v)
      end
  end.

Section Broadcasting.

Lemma bind_OK {A B : Type} (m : Result A) (f : A -> Result B) (b : B) :
  m ≫= f = OK b -> exists a, m = OK a /\ f a = OK b.
Proof.
  destruct m as [a|e]; simpl; intros H; [eauto | discriminate].
Qed.

Lemma bdim_refl a : bdim a a = OK a.
Proof. unfold bdim. by rewrite Z.eqb_refl. Qed.

Lemma broadcast_rev_refl s : broadcast_rev s s = OK s.
Proof.
  induction s as [|a s IH]; simpl; [done|].
  rewrite bdim_refl. simpl. rewrite IH. done.
Qed.

Lemma broadcast_shapes_refl s : broadcast_shapes s s = OK s.
Proof.
  unfold broadcast_shapes. rewrite broadcast_rev_refl. simpl.
  by rewrite rev_involutive.
Qed.

Lemma bindex_valid s idx : valid_index s idx -> bindex s idx = idx.
Proof.
  intros Hv. unfold bindex.
  rewrite (Forall2_length _ _ _ Hv), Nat.sub_diag, drop_0.
  induction Hv as [|d k s idx Hk _ IH]; simpl; [done|].
  rewrite IH. destruct (Z.eqb_spec d 1); [|done].
  f_equal. lia.
Qed.

Lemma ewise_same_shape f x y :
  shape x = shape y ->
  exists out, ewise f x y = OK out /\ shape out = shape x /\
    forall idx, valid_index (shape x) idx ->
      dat out idx = f (dat x idx) (dat y idx).
Proof.
  intros E. unfold ewise. rewrite <- E, broadcast_shapes_refl. simpl.
  eexists. split; [done|]. split; [done|].
  intros idx Hv. simpl. by rewrite bindex_valid.
Qed.

Lemma bdim_one_r a : bdim a 1 = OK a.
Proof.
  unfold bdim. destruct (Z.eqb_spec a 1) as [->|]; [done|].
  destruct (Z.eqb_spec a 1); [done|]. done.
Qed.

End Broadcasting.

Ltac inv_bind H :=
  repeat match type of H with
  | (_ ≫= _) = OK _ =>
      let a := fresh "v" in
      let E := fresh "E" in
      apply bind_OK in H; destruct H as (a & E & H)
  end.

(** ** [FlowMotionNet.warp] *)

Section WarpFacts.
#[local] Open Scope R_scope.

Lemma valid_index4 (a b c d : Z) idx :
  valid_index [a; b; c; d] idx ->
  exists n k h w, idx = [n; k; h; w] /\
    (0 <= n < a /\ 0 <= k < b /\ 0 <= h < c /\ 0 <= w < d)%Z.
Proof.
  intros Hv. unfold valid_index in Hv.
  repeat match goal with
  | H : Forall2 _ (_ :: _) _ |- _ =>
      apply Forall2_cons_inv_l in H; destruct H as (? & ? & ? & H & ->)
  | H : Forall2 _ [] _ |- _ => apply Forall2_nil_inv_l in H; subst
  end.
  do 4 eexists. split; [reflexivity | lia].
Qed.

Lemma valid_index4_intro (a b c d n k h w : Z) :
  (0 <= n < a)%Z -> (0 <= k < b)%Z -> (0 <= h < c)%Z -> (0 <= w < d)%Z ->
  valid_index [a; b; c; d] [n; k; h; w].
Proof. intros. repeat constructor; lia. Qed.

(** the sampling grid of a well-shaped call *)
Lemma warp_vgrid_spec x flo B C H W :
  shape x = [B; C; H; W] -> shape flo = [B; 2%Z; H; W] ->
  exists vg, warp_vgrid x flo = OK vg /\ shape vg = [B; H; W; 2%Z] /\
    forall n h w, (0 <= n < B)%Z -> (0 <= h < H)%Z -> (0 <= w < W)%Z ->
      dat vg [n; h; w; 0%Z]
        = 2 * (IZR w + dat flo [n; 0%Z; h; w]) / IZR (Z.max (W - 1) 1) - 1
      /\ dat vg [n; h; w; 1%Z]
        = 2 * (IZR h + dat flo [n; 1%Z; h; w]) / IZR (Z.max (H - 1) 1) - 1.
Proof.
  intros Ex Ef. unfold warp_vgrid, size4. rewrite Ex. simpl.
  destruct (ewise_same_shape Rplus (meshgrid B H W) flo) as (s & Es & Hs & Hd).
  { by rewrite Ef. }
  unfold add. rewrite Es. simpl.
  unfold permute_0231, scale_grid. simpl. rewrite Hs. simpl.
  eexists. split; [reflexivity|]. split; [reflexivity|].
  intros n h w Hn Hh Hw. simpl.
  rewrite !Hd by (apply valid_index4_intro; lia).
  simpl. done.
Qed.

Lemma unnormalize_pixel_centre (size k : Z) :
  (0 <= k < size)%Z ->
  unnormalize true size (2 * (IZR k + 0) / IZR (Z.max (size - 1) 1) - 1) = IZR k.
Proof.
  intros Hk. unfold unnormalize.
  destruct (Z.eq_dec size 1%Z) as [->|Hne].
  - assert (k = 0%Z) as -> by lia. simpl. lra.
  - rewrite Z.max_l by lia. rewrite minus_IZR.
    assert (IZR size - 1 <> 0).
    { intros E. apply Hne. apply eq_IZR. lra. }
    field. done.
Qed.

Lemma pixel_inside t a b H W n c y x :
  shape t = [a; b; H; W] -> (0 <= x < W)%Z -> (0 <= y < H)%Z ->
  pixel t n c y x = dat t [n; c; y; x].
Proof.
  intros E Hx Hy. unfold pixel. rewrite E.
  rewrite bool_decide_eq_true_2; [done | lia].
Qed.

Lemma bilinear_at_pixel t a b H W n c (y x : Z) :
  shape t = [a; b; H; W] -> (0 <= x < W)%Z -> (0 <= y < H)%Z ->
  bilinear true t n c
    (2 * (IZR x + 0) / IZR (Z.max (W - 1) 1) - 1)
    (2 * (IZR y + 0) / IZR (Z.max (H - 1) 1) - 1)
  = dat t [n; c; y; x].
Proof.
  intros E Hx Hy. unfold bilinear. rewrite E.
  rewrite !unnormalize_pixel_centre by done.
  rewrite !ZfloorZ. cbv zeta.
  rewrite (pixel_inside t a b H W) by done.
  rewrite !plus_IZR. simpl. ring.
Qed.

Lemma threshold_one s idx : dat (threshold (mkTensor s (fun _ => 1))) idx = 1.
Proof.
  unfold threshold, masked_fill_gt, masked_fill_lt. simpl.
  rewrite (bool_decide_eq_false_2 (1 < (9999 / 10000))) by lra.
  rewrite bool_decide_eq_true_2 by lra. done.
Qed.

Lemma grid_sample_spec a input grid N C H W Ho Wo :
  shape input = [N; C; H; W] -> shape grid = [N; Ho; Wo; 2%Z] ->
  (0 < H)%Z -> (0 < W)%Z ->
  exists out, grid_sample a input grid = OK out /\
    shape out = [N; C; Ho; Wo] /\
    forall n c h w, dat out [n; c; h; w]
      = bilinear a input n c (dat grid [n; h; w; 0%Z]) (dat grid [n; h; w; 1%Z]).
Proof.
  intros Ei Eg HH HW. unfold grid_sample. rewrite Ei, Eg.
  rewrite bool_decide_eq_true_2 by lia.
  eexists. split; [reflexivity|]. split; [reflexivity|]. done.
Qed.

(** With aligned corners, warping under a zero flow is the identity.  For
    every tensor [x] of shape (B, C, H, W) with a non-empty image and every
    flow [flo] of shape (B, 2, H, W) that is zero at each of its positions,
    [warp true x flo] returns, and the tensor it returns has the shape of
    [x] and the value of [x] at every position, border pixels included.
    The sampling grid of lines 266-267 maps pixel [k] of [W] to
    [2k/(W-1) - 1]: it is written for the convention in which -1 and 1
    name the centres of the corner pixels. *)
Theorem warp_zero_flow_identity (x flo : Tensor) (B C H W : Z) :
  shape x = [B; C; H; W] ->
  shape flo = [B; 2%Z; H; W] ->
  (0 < H)%Z -> (0 < W)%Z ->
  (forall idx, valid_index (shape flo) idx -> dat flo idx = 0) ->
  exists out,
    warp true x flo = OK out /\
    shape out = shape x /\
    forall idx, valid_index (shape x) idx -> dat out idx = dat x idx.
Proof.
  intros Ex Ef HH HW Hz.
  destruct (warp_vgrid_spec x flo B C H W Ex Ef) as (vg & Evg & Svg & Dvg).
  destruct (grid_sample_spec true x vg B C H W H W Ex Svg HH HW)
    as (o & Eo & So & Do).
  destruct (grid_sample_spec true (ones (shape x)) vg B C H W H W)
    as (m & Em & Sm & Dm); [by rewrite Ex | done..|].
  destruct (ewise_same_shape Rmult o (threshold m)) as (out & E & S & D).
  { simpl. by rewrite So, Sm. }
  exists out. unfold warp. rewrite Evg. simpl. rewrite Eo. simpl.
  rewrite Em. simpl. split; [exact E|].
  split; [by rewrite S, So, Ex|].
  intros idx Hv. rewrite Ex in Hv.
  destruct (valid_index4 _ _ _ _ _ Hv) as (n & c & h & w & -> & Hn & Hc & Hh & Hw).
  rewrite D by (rewrite So; apply valid_index4_intro; lia).
  rewrite Do. unfold threshold, masked_fill_gt, masked_fill_lt. simpl.
  rewrite Dm.
  destruct (Dvg n h w Hn Hh Hw) as [D0 D1].
  rewrite D0, D1.
  rewrite !Hz by (rewrite Ef; apply valid_index4_intro; lia).
  rewrite (bilinear_at_pixel x B C H W) by done.
  rewrite (bilinear_at_pixel (ones (shape x)) B C H W) by (by rewrite ?Ex).
  simpl.
  rewrite (bool_decide_eq_false_2 (1 < (9999 / 10000))) by lra.
  rewrite bool_decide_eq_true_2 by lra. ring.
Qed.

Lemma grid_sample_inv a input grid out :
  grid_sample a input grid = OK out ->
  exists N C H W Ho Wo,
    shape input = [N; C; H; W] /\ shape grid = [N; Ho; Wo; 2%Z] /\
    (0 < H)%Z /\ (0 < W)%Z.
Proof.
  unfold grid_sample.
  destruct (shape input) as [|N [|C [|H [|W [|]]]]]; try discriminate.
  destruct (shape grid) as [|N' [|Ho [|Wo [|two [|]]]]]; try discriminate.
  case_bool_decide as Hd; [|discriminate].
  intros _. destruct Hd as (-> & -> & ? & ?).
  by exists N', C, H, W, Ho, Wo.
Qed.

Lemma threshold_binary t idx :
  let s := dat t idx in
  let m := dat (threshold t) idx in
  (m = 0 \/ m = 1) /\ (m = 1 <-> (9999 / 10000) <= s).
Proof.
  unfold threshold, masked_fill_gt, masked_fill_lt. simpl.
  destruct (bool_decide_reflect (dat t idx < (9999 / 10000))) as [Hlt|Hge].
  - rewrite bool_decide_eq_false_2 by lra. split; [by left|]. split; lra.
  - rewrite bool_decide_eq_true_2 by lra. split; [by right|]. split; [lra|done].
Qed.

Lemma sampled_ones_channel a s n c c' gx gy :
  bilinear a (ones s) n c' gx gy = bilinear a (ones s) n c gx gy.
Proof. reflexivity. Qed.

(** C4.  The mask of [warp] is binary, and it decides each pixel for all
    channels at once.  Whenever [warp x flo] returns [out], the sampled
    image [output] and the sampled mask [smask] exist with the shape of
    [out], and at every position (n, c, h, w) of [out]:
    - the thresholded mask is exactly 0 or exactly 1;
    - it is 1 exactly when the sampled mask value is at least 0.9999 (a
      value equal to 0.9999 is kept: line 273 zeroes the values below it);
    - the sampled mask has the same value in every channel;
    - [out] holds the sampled image value where the sampled mask is at
      least 0.9999 and 0 elsewhere, so no mask value between 0 and 1
      reaches the result. *)
Theorem warp_mask_binary (a : bool) (x flo out : Tensor) :
  warp a x flo = OK out ->
  exists vgrid output smask,
    warp_vgrid x flo = OK vgrid /\
    grid_sample a x vgrid = OK output /\
    grid_sample a (ones (shape x)) vgrid = OK smask /\
    shape out = shape output /\
    forall n c h w, valid_index (shape out) [n; c; h; w] ->
      let s := dat smask [n; c; h; w] in
      let m := dat (threshold smask) [n; c; h; w] in
      (m = 0 \/ m = 1) /\
      (m = 1 <-> (9999 / 10000) <= s) /\
      (forall c', dat smask [n; c'; h; w] = s) /\
      dat out [n; c; h; w]
        = if bool_decide ((9999 / 10000) <= s) then dat output [n; c; h; w] else 0.
Proof.
  unfold warp. intros Hw.
  apply bind_OK in Hw. destruct Hw as (vg & Evg & Hw).
  apply bind_OK in Hw. destruct Hw as (o & Eo & Hw).
  apply bind_OK in Hw. destruct Hw as (sm & Esm & Hw).
  exists vg, o, sm. do 3 (split; [done|]).
  destruct (grid_sample_inv _ _ _ _ Eo) as (N & C & H & W & Ho & Wo & Sx & Sg & HH & HW).
  destruct (grid_sample_spec a x vg N C H W Ho Wo Sx Sg HH HW) as (o' & Eo' & So & Do).
  destruct (grid_sample_spec a (ones (shape x)) vg N C H W Ho Wo)
    as (sm' & Esm' & Ssm & Dsm); [by rewrite Sx | done..|].
  assert (o' = o) as -> by congruence.
  assert (sm' = sm) as -> by congruence.
  destruct (ewise_same_shape Rmult o (threshold sm)) as (out' & E & S & D).
  { simpl. by rewrite So, Ssm. }
  unfold mul in Hw. assert (out' = out) as -> by congruence.
  split; [done|].
  intros n c h w Hv. rewrite S in Hv.
  destruct (threshold_binary sm [n; c; h; w]) as [Hb Hiff].
  cbv zeta. split; [exact Hb|]. split; [exact Hiff|].
  split.
  { intros c'. rewrite !Dsm. reflexivity. }
  rewrite D by done.
  case_bool_decide as Hs.
  - apply Hiff in Hs. rewrite Hs. ring.
  - destruct Hb as [Hb|Hb]; [rewrite Hb; ring|]. by apply Hiff in Hb.
Qed.

Lemma warp_well_shaped a x flo B C H W :
  shape x = [B; C; H; W] -> shape flo = [B; 2%Z; H; W] ->
  (0 < H)%Z -> (0 < W)%Z ->
  exists vg o sm out,
    warp_vgrid x flo = OK vg /\
    grid_sample a x vg = OK o /\
    grid_sample a (ones (shape x)) vg = OK sm /\
    warp a x flo = OK out /\
    shape out = [B; C; H; W] /\
    forall n c h w, (0 <= n < B)%Z -> (0 <= c < C)%Z ->
                    (0 <= h < H)%Z -> (0 <= w < W)%Z ->
      let gx := 2 * (IZR w + dat flo [n; 0%Z; h; w]) / IZR (Z.max (W - 1) 1) - 1 in
      let gy := 2 * (IZR h + dat flo [n; 1%Z; h; w]) / IZR (Z.max (H - 1) 1) - 1 in
      dat o [n; c; h; w] = bilinear a x n c gx gy /\
      dat sm [n; c; h; w] = bilinear a (ones (shape x)) n c gx gy /\
      dat out [n; c; h; w] = dat o [n; c; h; w] * dat (threshold sm) [n; c; h; w].
Proof.
  intros Ex Ef HH HW.
  destruct (warp_vgrid_spec x flo B C H W Ex Ef) as (vg & Evg & Svg & Dvg).
  destruct (grid_sample_spec a x vg B C H W H W Ex Svg HH HW)
    as (o & Eo & So & Do).
  destruct (grid_sample_spec a (ones (shape x)) vg B C H W H W)
    as (m & Em & Sm & Dm); [by rewrite Ex | done..|].
  destruct (ewise_same_shape Rmult o (threshold m)) as (out & E & S & D).
  { simpl. by rewrite So, Sm. }
  exists vg, o, m, out. do 3 (split; [done|]).
  split.
  { unfold warp. rewrite Evg. simpl. rewrite Eo. simpl. rewrite Em. exact E. }
  split; [by rewrite S, So|].
  intros n c h w Hn Hc Hh Hw. cbv zeta.
  destruct (Dvg n h w Hn Hh Hw) as [D0 D1].
  rewrite Do, Dm, D0, D1. do 2 (split; [done|]).
  rewrite D by (rewrite So; apply valid_index4_intro; lia).
  by rewrite Do, D0, D1.
Qed.

Lemma sampled_mask_at_edge :
  bilinear true (ones [1; 1; 1; 2]%Z) 0 0 (10002 / 10000) (-1) = 9999 / 10000.
Proof.
  unfold bilinear.
  change (shape (ones [1; 1; 1; 2]%Z)) with [1; 1; 1; 2]%Z. cbv iota zeta beta.
  assert (E1 : unnormalize true 2 (10002 / 10000) = 10001 / 10000).
  { unfold unnormalize. lra. }
  assert (E2 : unnormalize true 1 (-1) = 0).
  { unfold unnormalize. lra. }
  rewrite E1, E2.
  assert (F1 : Zfloor (10001 / 10000) = 1%Z) by (apply Zfloor_eq; lra).
  assert (F2 : Zfloor 0 = 0%Z) by (apply Zfloor_eq; lra).
  rewrite F1, F2.
  assert (P : forall y x, pixel (ones [1; 1; 1; 2]%Z) 0 0 y x
                = if bool_decide (0 <= x < 2 /\ 0 <= y < 1)%Z then 1 else 0)
    by reflexivity.
  rewrite !P.
  rewrite (bool_decide_eq_true_2 (0 <= 1 < 2 /\ 0 <= 0 < 1)%Z) by lia.
  rewrite !bool_decide_eq_false_2 by lia.
  IZR_compute. lra.
Qed.

Lemma sampled_image_at_edge :
  bilinear true x_pair 0 0 (10002 / 10000) (-1) = 7 * (9999 / 10000).
Proof.
  unfold bilinear.
  change (shape x_pair) with [1; 1; 1; 2]%Z. cbv iota zeta beta.
  assert (E1 : unnormalize true 2 (10002 / 10000) = 10001 / 10000).
  { unfold unnormalize. lra. }
  assert (E2 : unnormalize true 1 (-1) = 0).
  { unfold unnormalize. lra. }
  rewrite E1, E2.
  assert (F1 : Zfloor (10001 / 10000) = 1%Z) by (apply Zfloor_eq; lra).
  assert (F2 : Zfloor 0 = 0%Z) by (apply Zfloor_eq; lra).
  rewrite F1, F2.
  assert (P : forall y x, pixel x_pair 0 0 y x
                = if bool_decide (0 <= x < 2 /\ 0 <= y < 1)%Z
                  then dat x_pair [0; 0; y; x]%Z else 0)
    by reflexivity.
  rewrite !P.
  rewrite (bool_decide_eq_true_2 (0 <= 1 < 2 /\ 0 <= 0 < 1)%Z) by lia.
  rewrite !bool_decide_eq_false_2 by lia.
  change (dat x_pair [0; 0; 0; 1]%Z) with 7.
  IZR_compute. lra.
Qed.

Lemma sampled_at_edge_unaligned (t : Tensor) :
  shape t = [1; 1; 2; 2]%Z ->
  bilinear false t 0 0 (5001 / 10000) (- (1 / 2))
  = dat t [0; 0; 0; 1]%Z * (9999 / 10000).
Proof.
  intros St. unfold bilinear. rewrite St.
  assert (E1 : unnormalize false 2 (5001 / 10000) = 10001 / 10000).
  { unfold unnormalize. lra. }
  assert (E2 : unnormalize false 2 (- (1 / 2)) = 0).
  { unfold unnormalize. lra. }
  rewrite E1, E2.
  assert (F1 : Zfloor (10001 / 10000) = 1%Z) by (apply Zfloor_eq; lra).
  assert (F2 : Zfloor 0 = 0%Z) by (apply Zfloor_eq; lra).
  rewrite F1, F2.
  assert (P : forall y x, pixel t 0 0 y x
                = if bool_decide (0 <= x < 2 /\ 0 <= y < 2)%Z
                  then dat t [0; 0; y; x]%Z else 0).
  { intros y x. unfold pixel. by rewrite St. }
  rewrite !P.
  rewrite (bool_decide_eq_true_2 (0 <= 1 < 2 /\ 0 <= 0 < 2)%Z) by lia.
  rewrite (bool_decide_eq_false_2 (0 <= 1 + 1 < 2 /\ 0 <= 0 < 2)%Z) by lia.
  rewrite (bool_decide_eq_true_2 (0 <= 1 < 2 /\ 0 <= 0 + 1 < 2)%Z) by lia.
  rewrite (bool_decide_eq_false_2 (0 <= 1 + 1 < 2 /\ 0 <= 0 + 1 < 2)%Z) by lia.
  IZR_compute. lra.
Qed.

Lemma kept_at_threshold_aligned :
  kept_at_threshold true x_pair flo_edge [0; 0; 0; 1]%Z.
Proof.
  destruct (warp_well_shaped true x_pair flo_edge 1 1 1 2)
    as (vg & o & sm & out & Evg & Eo & Esm & Ew & So & D);
    [reflexivity | reflexivity | lia | lia |].
  destruct (D 0%Z 0%Z 0%Z 1%Z) as (Do & Dsm & Dout); [lia..|].
  cbv zeta in Do, Dsm. simpl in Do, Dsm.
  replace (2 * (1 + 1 / 10000) / IZR (Z.max (2 - 1) 1) - 1)
    with (10002 / 10000) in Do, Dsm by (IZR_compute; lra).
  replace (2 * (0 + 0) / IZR (Z.max (1 - 1) 1) - 1)
    with (-1) in Do, Dsm by (IZR_compute; lra).
  rewrite sampled_mask_at_edge in Dsm.
  rewrite sampled_image_at_edge in Do.
  assert (Dt : dat (threshold sm) [0; 0; 0; 1]%Z = 1).
  { apply (threshold_binary sm [0; 0; 0; 1]%Z). rewrite Dsm. lra. }
  assert (Dv : dat out [0; 0; 0; 1]%Z = 7 * (9999 / 10000)).
  { rewrite Dout, Do, Dt. lra. }
  exists out, vg, sm. do 3 (split; [done|]).
  split; [rewrite So; apply valid_index4_intro; lia|].
  split; [done|]. split; [rewrite Dsm; lra|].
  split; [done|]. split; [done|]. rewrite Dv. lra.
Qed.

Lemma kept_at_threshold_unaligned :
  kept_at_threshold false x_quad flo_quad [0; 0; 0; 1]%Z.
Proof.
  destruct (warp_well_shaped false x_quad flo_quad 1 1 2 2)
    as (vg & o & sm & out & Evg & Eo & Esm & Ew & So & D);
    [reflexivity | reflexivity | lia | lia |].
  destruct (D 0%Z 0%Z 0%Z 1%Z) as (Do & Dsm & Dout); [lia..|].
  cbv zeta in Do, Dsm. simpl in Do, Dsm.
  replace (2 * (1 + - (24995 / 100000)) / IZR (Z.max (2 - 1) 1) - 1)
    with (5001 / 10000) in Do, Dsm by (IZR_compute; lra).
  replace (2 * (0 + 1 / 4) / IZR (Z.max (2 - 1) 1) - 1)
    with (- (1 / 2)) in Do, Dsm by (IZR_compute; lra).
  rewrite sampled_at_edge_unaligned in Do, Dsm by reflexivity.
  change (dat x_quad [0; 0; 0; 1]%Z) with 7 in Do.
  change (dat (ones _) _) with 1 in Dsm.
  assert (Dsm' : dat sm [0; 0; 0; 1]%Z = 9999 / 10000) by (rewrite Dsm; lra).
  assert (Dt : dat (threshold sm) [0; 0; 0; 1]%Z = 1).
  { apply (threshold_binary sm [0; 0; 0; 1]%Z). rewrite Dsm'. lra. }
  assert (Dv : dat out [0; 0; 0; 1]%Z = 7 * (9999 / 10000)).
  { rewrite Dout, Do, Dt. lra. }
  exists out, vg, sm. do 3 (split; [done|]).
  split; [rewrite So; apply valid_index4_intro; lia|].
  split; [done|]. split; [rewrite Dsm'; lra|].
  split; [done|]. split; [done|]. rewrite Dv. lra.
Qed.

(** C4, the boundary.  A pixel whose sampled mask value is exactly 0.9999
    does not exceed 0.9999, and yet it is kept: the thresholded mask is 1
    there and the result holds the sampled value 7 * 0.9999, not 0.  This
    happens on the two-pixel image [x_pair] with the flow [flo_edge] when
    [grid_sample] aligns corners, and on the 2 x 2 image [x_quad] with the
    flow [flo_quad] when it does not. *)
Lemma warp_keeps_pixel_at_threshold :
  kept_at_threshold true x_pair flo_edge [0; 0; 0; 1]%Z /\
  kept_at_threshold false x_quad flo_quad [0; 0; 0; 1]%Z.
Proof.
  split; [exact kept_at_threshold_aligned | exact kept_at_threshold_unaligned].
Qed.

Lemma warp_zero_flow_identity_witness :
  exists out,
    warp true x_pair (zeros [1; 2; 1; 2]%Z) = OK out /\
    shape out = shape x_pair /\
    forall idx, valid_index (shape x_pair) idx -> dat out idx = dat x_pair idx.
Proof.
  apply (warp_zero_flow_identity x_pair (zeros [1; 2; 1; 2]%Z) 1 1 1 2);
    [reflexivity | reflexivity | lia | lia | intros; reflexivity].
Defined.

Lemma warp_mask_binary_witness :
  exists out,
    warp true x_pair flo_edge = OK out /\
    exists vgrid output smask,
      warp_vgrid x_pair flo_edge = OK vgrid /\
      grid_sample true x_pair vgrid = OK output /\
      grid_sample true (ones (shape x_pair)) vgrid = OK smask /\
      shape out = shape output /\
      forall n c h w, valid_index (shape out) [n; c; h; w] ->
        let s := dat smask [n; c; h; w] in
        let m := dat (threshold smask) [n; c; h; w] in
        (m = 0 \/ m = 1) /\
        (m = 1 <-> 9999 / 10000 <= s) /\
        (forall c', dat smask [n; c'; h; w] = s) /\
        dat out [n; c; h; w]
          = if bool_decide (9999 / 10000 <= s) then dat output [n; c; h; w] else 0.
Proof.
  eexists. split; [reflexivity|].
  apply (warp_mask_binary true x_pair flo_edge). reflexivity.
Defined.

(** Under the other convention of [grid_sample], in which -1 and 1 name the
    outer edges of the corner pixels, the zero flow does not give the
    identity: the left pixel of [x_pair] is sampled half a pixel outside
    the image in either direction, its mask value is 1/4, and it is
    zeroed. *)
Lemma warp_unaligned_zero_flow :
  exists out,
    warp false x_pair (zeros [1; 2; 1; 2]%Z) = OK out /\
    dat out [0; 0; 0; 0]%Z = 0 /\ dat x_pair [0; 0; 0; 0]%Z = 5.
Proof.
  destruct (warp_well_shaped false x_pair (zeros [1; 2; 1; 2]%Z) 1 1 1 2)
    as (vg & o & sm & out & Evg & Eo & Esm & Ew & So & D);
    [reflexivity | reflexivity | lia | lia |].
  exists out. split; [exact Ew|]. split; [|reflexivity].
  destruct (D 0%Z 0%Z 0%Z 0%Z) as (_ & Dsm & Dout); [lia..|].
  cbv zeta in Dsm. simpl in Dsm.
  replace (2 * (0 + 0) / IZR (Z.max (2 - 1) 1) - 1)
    with (-1) in Dsm by (IZR_compute; lra).
  replace (2 * (0 + 0) / IZR (Z.max (1 - 1) 1) - 1)
    with (-1) in Dsm by (IZR_compute; lra).
  assert (Em : dat sm [0; 0; 0; 0]%Z = 1 / 4).
  { rewrite Dsm. unfold bilinear.
    change (shape (ones [1; 1; 1; 2]%Z)) with [1; 1; 1; 2]%Z.
    cbv iota zeta beta.
    assert (E1 : unnormalize false 2 (-1) = - (1 / 2)) by (unfold unnormalize; lra).
    assert (E2 : unnormalize false 1 (-1) = - (1 / 2)) by (unfold unnormalize; lra).
    rewrite E1, E2.
    assert (F : Zfloor (- (1 / 2)) = (-1)%Z) by (apply Zfloor_eq; lra).
    rewrite F.
    assert (P : forall y x, pixel (ones [1; 1; 1; 2]%Z) 0 0 y x
                  = if bool_decide (0 <= x < 2 /\ 0 <= y < 1)%Z then 1 else 0)
      by reflexivity.
    rewrite !P.
    rewrite (bool_decide_eq_true_2 (0 <= -1 + 1 < 2 /\ 0 <= -1 + 1 < 1)%Z) by lia.
    rewrite !bool_decide_eq_false_2 by lia.
    IZR_compute. lra. }
  rewrite Dout.
  destruct (threshold_binary sm [0; 0; 0; 0]%Z) as [[H0|H1] Hiff].
  - rewrite H0. ring.
  - apply Hiff in H1. lra.
Qed.

End WarpFacts.

(** ** [MotionNet.forward] *)

Section MotionHeadFacts.
#[local] Open Scope R_scope.

Lemma valid_index2_intro (a b n k : Z) :
  (0 <= n < a)%Z -> (0 <= k < b)%Z -> valid_index [a; b] [n; k].
Proof. intros. repeat constructor; lia. Qed.

Lemma slice_cols_spec t B n lo hi lo' hi' :
  shape t = [B; n] -> slice_bounds n lo hi = (lo', hi') ->
  exists r, slice_cols t lo hi = OK r /\ shape r = [B; (hi' - lo')%Z] /\
    forall b j, dat r [b; j] = dat t [b; (lo' + j)%Z].
Proof.
  intros St Sb. unfold slice_cols. rewrite St, Sb.
  eexists. split; [reflexivity|]. split; [reflexivity|]. done.
Qed.

Lemma set_cols_spec t src B n lo hi lo' hi' :
  shape t = [B; n] -> slice_bounds n lo hi = (lo', hi') ->
  shape src = [B; (hi' - lo')%Z] ->
  exists r, set_cols t lo hi src = OK r /\ shape r = [B; n] /\
    forall b j, (0 <= b < B)%Z ->
      dat r [b; j] = if bool_decide (lo' <= j < hi')%Z
                     then dat src [b; (j - lo')%Z] else dat t [b; j].
Proof.
  intros St Sb Ss. unfold set_cols. rewrite St, Sb, Ss.
  rewrite broadcast_shapes_refl. simpl.
  rewrite bool_decide_eq_true_2 by done.
  eexists. split; [reflexivity|]. split; [reflexivity|].
  intros b j Hb. simpl. case_bool_decide as Hj; [|done].
  rewrite bindex_valid by (apply valid_index2_intro; lia). done.
Qed.

Lemma normalize_spec t B n :
  shape t = [B; n] ->
  exists r, normalize t = OK r /\ shape r = [B; n] /\
    forall b j, dat r [b; j]
      = dat t [b; j] / Rmax (norm_dim1 t n b []) normalize_eps.
Proof.
  intros St. unfold normalize. rewrite St.
  eexists. split; [reflexivity|]. split; [reflexivity|]. done.
Qed.

(** what [assemble] writes into each column of a batch of 6-vectors *)
Lemma assemble_spec (p : Tensor) (B : Z) :
  shape p = [B; 6%Z] ->
  exists r tail, assemble p = OK r /\ shape r = [B; 6%Z] /\
    shape tail = [B; 3%Z] /\
    (forall b j, dat tail [b; j] = dat p [b; (3 + j)%Z]) /\
    forall b, (0 <= b < B)%Z ->
      let n := Rmax (norm_dim1 tail 3 b []) normalize_eps in
      dat r [b; 0%Z] = dat p [b; 0%Z] /\
      dat r [b; 1%Z] = dat p [b; 1%Z] /\
      dat r [b; 2%Z] = dat p [b; 2%Z] /\
      dat r [b; 3%Z] = dat p [b; 3%Z] / n /\
      dat r [b; 4%Z] = dat p [b; 4%Z] / n /\
      dat r [b; 5%Z] = dat p [b; 5%Z] / n.
Proof.
  intros Sp. unfold assemble.
  destruct (slice_cols_spec p B 6 0 (Some 3%Z) 0 3 Sp eq_refl)
    as (hd & Ehd & Shd & Dhd).
  destruct (set_cols_spec (zeros (shape p)) hd B 6 0 (Some 3%Z) 0 3)
    as (r1 & Er1 & Sr1 & Dr1); [done..|].
  destruct (slice_cols_spec p B 6 3 None 3 6 Sp eq_refl)
    as (tl & Etl & Stl & Dtl).
  destruct (normalize_spec tl B 3 Stl) as (nt & Ent & Snt & Dnt).
  destruct (set_cols_spec r1 nt B 6 3 None 3 6)
    as (r2 & Er2 & Sr2 & Dr2); [done..|].
  exists r2, tl. rewrite Ehd. simpl. rewrite Er1. simpl. rewrite Etl. simpl.
  rewrite Ent. simpl. split; [exact Er2|]. split; [exact Sr2|].
  split; [exact Stl|]. split; [exact Dtl|].
  intros b Hb. cbv zeta.
  repeat split;
    rewrite Dr2 by done; rewrite ?Dr1 by done;
    repeat (case_bool_decide; try lia);
    rewrite ?Dhd, ?Dnt, ?Dtl; reflexivity.
Qed.

Lemma linear_rank2 m h B n p :
  shape h = [B; n] -> linear m h = OK p ->
  shape p = [B; out_features m] /\
  forall b o, dat p [b; o]
    = sum_range n (fun i => dat h [b; i] * dat (lin_weight m) [o; i])
      + bias_at (lin_bias m) o.
Proof.
  intros Sh. unfold linear. rewrite Sh. simpl.
  case_bool_decide; [|discriminate].
  intros [= <-]. split; reflexivity.
Qed.

Lemma layer_call_rank2 l x y B n :
  shape x = [B; n] -> layer_call l x = OK y -> exists n', shape y = [B; n'].
Proof.
  intros Sx. destruct l as [c|a|m]; simpl.
  - unfold conv2d. rewrite Sx. discriminate.
  - intros [= <-]. by exists n.
  - intros E. destruct (linear_rank2 _ _ _ _ _ Sx E) as [S _]. eauto.
Qed.

Lemma sequential_rank2 ls x y B n :
  shape x = [B; n] -> sequential ls x = OK y -> exists n', shape y = [B; n'].
Proof.
  revert x n. induction ls as [|l ls IH]; intros x n Sx; simpl.
  - intros [= <-]. eauto.
  - intros E. apply bind_OK in E. destruct E as (z & Ez & E).
    destruct (layer_call_rank2 _ _ _ _ _ Sx Ez) as [n' Sz]. eauto.
Qed.

Lemma view_flat_shape t b v :
  view_flat t b = OK v -> exists B C L, shape v = [B; C; L].
Proof.
  unfold view_flat.
  destruct (shape t) as [|B [|C [|H [|W [|]]]]]; try discriminate.
  case_bool_decide; [|discriminate]. intros [= <-]. eauto.
Qed.

Lemma mean_dim2_shape t B C L v :
  shape t = [B; C; L] -> mean_dim2 t = OK v -> shape v = [B; C].
Proof. unfold mean_dim2. intros ->. by intros [= <-]. Qed.

(** [predict] ends in the last linear layer, applied to a batch of vectors *)
Lemma predict_inv m x flow p :
  predict m x flow = OK p ->
  exists hidden B n,
    shape hidden = [B; n] /\ linear (last_layer m) hidden = OK p.
Proof.
  unfold predict. intros E. inv_bind E.
  match goal with H : view_flat _ _ = OK ?v |- _ =>
    destruct (view_flat_shape _ _ _ H) as (B & C & L & Sv) end.
  match goal with H : mean_dim2 _ = OK ?v |- _ =>
    pose proof (mean_dim2_shape _ _ _ _ _ Sv H) as Sm end.
  match goal with H : sequential (dropout_layers m) _ = OK ?v |- _ =>
    destruct (sequential_rank2 _ _ _ _ _ Sm H) as (n' & Sh) end.
  eauto.
Qed.

Lemma sum3 (f : Z -> R) : sum_range 3 f = f 0%Z + f 1%Z + f 2%Z.
Proof.
  unfold sum_range. change (Z.to_nat 3) with 3%nat. simpl.
  change (Z.of_nat 0) with 0%Z. change (Z.of_nat 1) with 1%Z.
  change (Z.of_nat 2) with 2%Z. ring.
Qed.

Lemma l2norm3 a b c : l2norm [a; b; c] = sqrt (a * a + b * b + c * c).
Proof. unfold l2norm. simpl. f_equal. ring. Qed.

Lemma normalized_unit a b c :
  let n := sqrt (a * a + b * b + c * c) in
  normalize_eps <= n ->
  let d := Rmax n normalize_eps in
  sqrt (a / d * (a / d) + b / d * (b / d) + c / d * (c / d)) = 1.
Proof.
  intros n Hn d. unfold d. rewrite Rmax_left by done.
  assert (Hpos : 0 < n) by (unfold normalize_eps in Hn; lra).
  assert (Hsq : n * n = a * a + b * b + c * c).
  { unfold n. apply sqrt_sqrt. nra. }
  replace (a / n * (a / n) + b / n * (b / n) + c / n * (c / n))
    with ((a * a + b * b + c * c) / (n * n)) by (field; lra).
  rewrite <- Hsq. replace (n * n / (n * n)) with 1 by (field; lra).
  apply sqrt_1.
Qed.

Lemma rotation_params_eq v i :
  rotation_params v i = [dat v [i; 0%Z]; dat v [i; 1%Z]; dat v [i; 2%Z]].
Proof. reflexivity. Qed.

Lemma translation_params_eq v i :
  translation_params v i = [dat v [i; 3%Z]; dat v [i; 4%Z]; dat v [i; 5%Z]].
Proof. reflexivity. Qed.

Lemma assemble_columns (p : Tensor) (B : Z) :
  shape p = [B; 6%Z] ->
  exists r,
    assemble p = OK r /\ shape r = [B; 6%Z] /\
    forall b, (0 <= b < B)%Z ->
      rotation_params r b = rotation_params p b /\
      translation_params r b
        = map (fun t => t / Rmax (l2norm (translation_params p b)) normalize_eps)
              (translation_params p b) /\
      (normalize_eps <= l2norm (translation_params p b) ->
       l2norm (translation_params r b) = 1).
Proof.
  intros Sp.
  destruct (assemble_spec p B Sp) as (r & tl & Er & Sr & Stl & Dtl & D).
  exists r. do 2 (split; [done|]).
  intros b Hb. destruct (D b Hb) as (D0 & D1 & D2 & D3 & D4 & D5).
  cbv zeta in D3, D4, D5.
  assert (En : norm_dim1 tl 3 b [] = l2norm (translation_params p b)).
  { unfold norm_dim1. rewrite sum3, !Dtl.
    rewrite translation_params_eq, l2norm3. done. }
  rewrite En in D3, D4, D5.
  rewrite !rotation_params_eq, (translation_params_eq r), D0, D1, D2, D3, D4, D5.
  split; [done|]. split.
  { by rewrite (translation_params_eq p) at 2. }
  rewrite (translation_params_eq p), !l2norm3.
  intros Hn. by apply normalized_unit.
Qed.

(** C1.  What [MotionNet.forward] normalises.  Let the last layer have six
    outputs and let [forward m x flow] return [r].  Then the raw prediction
    [p] of the layers exists, [p] and [r] have shape (B, 6), and for every
    item [b] of the batch:
    - components 0..2 of [r], the ones [get_motion] reads as the rotation
      axis and angle, are components 0..2 of [p], unchanged;
    - components 3..5 of [r], the ones [get_motion] reads as the
      translation, are components 3..5 of [p] divided by the larger of
      their L2 norm and 1e-12;
    - so components 3..5 of [r] have L2 norm 1 whenever the norm of the raw
      ones is at least 1e-12. *)
Theorem motion_vector_normalisation (m : MotionNet) (x flow r : Tensor) :
  out_features (last_layer m) = 6%Z ->
  forward m x flow = OK r ->
  exists p B,
    predict m x flow = OK p /\ shape p = [B; 6%Z] /\ shape r = [B; 6%Z] /\
    forall b, (0 <= b < B)%Z ->
      rotation_params r b = rotation_params p b /\
      translation_params r b
        = map (fun t => t / Rmax (l2norm (translation_params p b)) normalize_eps)
              (translation_params p b) /\
      (normalize_eps <= l2norm (translation_params p b) ->
       l2norm (translation_params r b) = 1).
Proof.
  intros Hout. unfold forward. intros E.
  apply bind_OK in E. destruct E as (p & Ep & Ea).
  destruct (predict_inv _ _ _ _ Ep) as (h & B & n & Sh & El).
  destruct (linear_rank2 _ _ _ _ _ Sh El) as [Sp _]. rewrite Hout in Sp.
  destruct (assemble_columns p B Sp) as (r' & Er & Sr & D).
  assert (r' = r) as -> by congruence.
  exists p, B. by do 3 (split; [done|]).
Qed.

Lemma sum_upto_zero n (f : Z -> R) :
  (forall i, f i = 0) -> sum_upto n f = 0.
Proof.
  intros Hf. induction n as [|n IH]; simpl; [done|]. rewrite IH, Hf. ring.
Qed.

Lemma sample_head_predict :
  exists p, predict sample_head (zeros [1; 1; 1; 1]%Z) (zeros [1; 2; 1; 1]%Z) = OK p /\
    shape p = [1; 6]%Z /\
    rotation_params p 0 = [3; 0; 0] /\ translation_params p 0 = [0; 0; 2].
Proof.
  assert (E : exists p, predict sample_head (zeros [1; 1; 1; 1]%Z)
                          (zeros [1; 2; 1; 1]%Z) = OK p /\ shape p = [1; 6]%Z).
  { eexists. split; reflexivity. }
  destruct E as (p & Ep & Sp). exists p. do 2 (split; [done|]).
  destruct (predict_inv _ _ _ _ Ep) as (h & B & n & Sh & El).
  destruct (linear_rank2 _ _ _ _ _ Sh El) as [_ D].
  assert (Dp : forall o, dat p [0%Z; o] = bias_at (lin_bias (last_layer sample_head)) o).
  { intros o. rewrite D. unfold sum_range. rewrite sum_upto_zero; [ring|].
    intros i. simpl. ring. }
  rewrite rotation_params_eq, translation_params_eq, !Dp. simpl. done.
Qed.

(** C1, the two halves the other way round.  The head [sample_head]
    predicts (3, 0, 0, 0, 0, 2) on a zero input; [forward] returns a vector
    whose components 0..2, the rotation that [get_motion] reads, have L2
    norm 3, while its components 3..5, the translation, have L2 norm 1. *)
Lemma rotation_part_not_unit :
  exists r,
    forward sample_head (zeros [1; 1; 1; 1]%Z) (zeros [1; 2; 1; 1]%Z) = OK r /\
    l2norm (rotation_params r 0) = 3 /\
    l2norm (translation_params r 0) = 1.
Proof.
  destruct sample_head_predict as (p & Ep & Sp & Rp & Tp).
  destruct (assemble_columns p 1 Sp) as (r & Er & Sr & D).
  exists r. split; [unfold forward; rewrite Ep; exact Er|].
  destruct (D 0%Z) as (Dr & Dt & Dn); [lia|].
  rewrite Dr, Rp. split.
  - rewrite l2norm3. replace (3 * 3 + 0 * 0 + 0 * 0) with (3 * 3) by ring.
    apply sqrt_square. lra.
  - apply Dn. rewrite Tp, l2norm3.
    replace (0 * 0 + 0 * 0 + 2 * 2) with (2 * 2) by ring.
    rewrite sqrt_square by lra. unfold normalize_eps. lra.
Qed.

Lemma motion_vector_normalisation_witness :
  exists r,
    forward sample_head (zeros [1; 1; 1; 1]%Z) (zeros [1; 2; 1; 1]%Z) = OK r /\
    exists p B,
      predict sample_head (zeros [1; 1; 1; 1]%Z) (zeros [1; 2; 1; 1]%Z) = OK p /\
      shape p = [B; 6%Z] /\ shape r = [B; 6%Z] /\
      forall b, (0 <= b < B)%Z ->
        rotation_params r b = rotation_params p b /\
        translation_params r b
          = map (fun t => t / Rmax (l2norm (translation_params p b)) normalize_eps)
                (translation_params p b) /\
        (normalize_eps <= l2norm (translation_params p b) ->
         l2norm (translation_params r b) = 1).
Proof.
  eexists. split; [reflexivity|].
  apply (motion_vector_normalisation sample_head); reflexivity.
Defined.

End MotionHeadFacts.

(** ** [FlowMotionNet.get_motion] *)

Section MotionDecoderFacts.
#[local] Open Scope R_scope.

Lemma from_axis_angle_zero angle :
  from_axis_angle [0; 0; 0] angle = Raise ZeroDivisionError.
Proof.
  unfold from_axis_angle. rewrite bool_decide_eq_true_2; [done | ring].
Qed.

Lemma from_axis_angle_cases a0 a1 a2 angle :
  from_axis_angle [a0; a1; a2] angle = Raise ZeroDivisionError \/
  exists q, from_axis_angle [a0; a1; a2] angle = OK q.
Proof.
  unfold from_axis_angle. case_bool_decide; [by left | right; eauto].
Qed.

Lemma row6_rotation v i :
  row v i 0 (Z.to_nat (Z.min 3 6)) = rotation_params v i.
Proof. reflexivity. Qed.

(** on 6-vectors a turn of the loop returns or raises [ZeroDivisionError] *)
Lemma decode_item_cases v i acc :
  decode_item v 6 i acc = Raise ZeroDivisionError \/
  exists acc', decode_item v 6 i acc = OK acc'.
Proof.
  unfold decode_item. destruct acc as [Rs Ts].
  rewrite row6_rotation, rotation_params_eq.
  unfold Quaternion_axis_radians.
  destruct (from_axis_angle_cases (dat v [i; 0%Z]) (dat v [i; 1%Z])
              (dat v [i; 2%Z])
              (l2norm [dat v [i; 0%Z]; dat v [i; 1%Z]; dat v [i; 2%Z]]))
    as [E|[q E]]; rewrite E; simpl; [by left|].
  right. eexists. reflexivity.
Qed.

Lemma decode_item_zero v i acc :
  rotation_params v i = [0; 0; 0] ->
  decode_item v 6 i acc = Raise ZeroDivisionError.
Proof.
  intros Hz. unfold decode_item. destruct acc as [Rs Ts].
  rewrite row6_rotation, Hz. unfold Quaternion_axis_radians.
  by rewrite from_axis_angle_zero.
Qed.

Lemma for_range_raises {St : Type} (body : Z -> St -> Result St) (e : exn)
    (n : nat) (i0 : Z) (k : nat) (s : St) :
  (forall i s, body i s = Raise e \/ exists s', body i s = OK s') ->
  (k < n)%nat ->
  (forall s, body (i0 + Z.of_nat k)%Z s = Raise e) ->
  for_range n i0 body s = Raise e.
Proof.
  intros Hcases. revert i0 k s. induction n as [|n IH]; intros i0 k s Hk Hr.
  - lia.
  - simpl. destruct k as [|k].
    + replace (i0 + Z.of_nat 0)%Z with i0 in Hr by lia. by rewrite Hr.
    + destruct (Hcases i0 s) as [E|[s' E]]; rewrite E; simpl; [done|].
      apply (IH (i0 + 1)%Z k); [lia|].
      intros s0. replace (i0 + 1 + Z.of_nat k)%Z with (i0 + Z.of_nat (S k))%Z by lia.
      apply Hr.
Qed.

(** C2.  A motion vector without rotation stops [get_motion].  For every
    batch [predicted_motion] of shape (B, 6) in which some item [i] has the
    rotation components (0, 0, 0), [get_motion] raises [ZeroDivisionError]:
    line 288 hands the zero vector to [Quaternion] as the axis, whose
    constructor refuses an axis without length, and nothing in lines
    279-294 guards the call.  No rotation matrix is returned for any item
    of the batch. *)
Theorem get_motion_zero_rotation (predicted_motion : Tensor) (B i : Z) :
  shape predicted_motion = [B; 6%Z] ->
  (0 <= i < B)%Z ->
  rotation_params predicted_motion i = [0; 0; 0] ->
  get_motion predicted_motion = Raise ZeroDivisionError.
Proof.
  intros Sp Hi Hz. unfold get_motion. rewrite Sp.
  apply (for_range_raises _ _ _ _ (Z.to_nat i)).
  - intros j s. apply decode_item_cases.
  - lia.
  - intros s. replace (0 + Z.of_nat (Z.to_nat i))%Z with i by lia.
    by apply decode_item_zero.
Qed.

Lemma get_motion_zero_rotation_witness :
  get_motion still_motion = Raise ZeroDivisionError.
Proof.
  apply (get_motion_zero_rotation still_motion 1 0); [reflexivity | lia | reflexivity].
Defined.

End MotionDecoderFacts.

(** ** The two views agree

    [Shapes] gives [warp] and [get_motion] the shapes that the numerical
    definitions compute. *)

Section ViewsAgree.
#[local] Open Scope R_scope.

Lemma grid_sample_shape_agrees a input grid out :
  grid_sample a input grid = OK out ->
  Shapes.grid_sample_shape (shape input) (shape grid) = OK (shape out).
Proof.
  unfold grid_sample, Shapes.grid_sample_shape.
  destruct (shape input) as [|N [|C [|H [|W [|]]]]]; try discriminate.
  destruct (shape grid) as [|N' [|Ho [|Wo [|two [|]]]]]; try discriminate.
  case_bool_decide; [|discriminate]. by intros [= <-].
Qed.

(** the shapes that [Shapes.warp_shape] computes are those of [warp] *)
Lemma warp_shape_agrees a x flo out :
  warp a x flo = OK out ->
  Shapes.warp_shape (shape x) (shape flo) = OK (shape out).
Proof.
  unfold warp, warp_vgrid, size4, Shapes.warp_shape. intros E.
  destruct (shape x) as [|B [|C [|H [|W [|]]]]] eqn:Sx; try discriminate.
  simpl in E.
  unfold add, ewise in E. simpl in E.
  destruct (broadcast_shapes [B; 2%Z; H; W] (shape flo)) as [s|] eqn:Es;
    [|discriminate].
  simpl in *. unfold permute_0231 in E. simpl in E.
  destruct s as [|b [|c [|h [|w [|]]]]]; try discriminate.
  simpl in E.
  apply bind_OK in E. destruct E as (o & Eo & E).
  apply bind_OK in E. destruct E as (sm & Esm & E).
  apply grid_sample_shape_agrees in Eo, Esm.
  rewrite Sx in Eo. unfold Shapes.grid_sample_shape in Eo, Esm.
  simpl in Eo, Esm.
  destruct (bool_decide (B = b /\ c = 2 /\ 0 < H /\ 0 < W)%Z); [|discriminate].
  injection Eo as Eo. injection Esm as Esm. simpl.
  unfold mul, ewise in E. simpl in E. rewrite <- Eo, <- Esm in E.
  destruct (broadcast_shapes [B; C; h; w] [B; C; h; w]) as [s'|]; [|discriminate].
  by injection E as <-.
Qed.





End ViewsAgree.

(** ** [FlowMotionNet.warp], pixel by pixel *)

Section WarpGeometry.
#[local] Open Scope R_scope.

Lemma bilinear_interpolate a t B C H W n c gx gy :
  shape t = [B; C; H; W] ->
  bilinear a t n c gx gy
  = interpolate t n c (unnormalize a W gx) (unnormalize a H gy).
Proof. intros E. unfold bilinear, interpolate. by rewrite E. Qed.

Lemma pixel_ones B C H W n c y x :
  pixel (ones [B; C; H; W]) n c y x
  = (if bool_decide (0 <= x < W)%Z then 1 else 0)
    * (if bool_decide (0 <= y < H)%Z then 1 else 0).
Proof.
  unfold pixel. simpl.
  destruct (bool_decide_reflect (0 <= x < W)%Z),
           (bool_decide_reflect (0 <= y < H)%Z).
  - rewrite bool_decide_eq_true_2 by done. lra.
  - rewrite bool_decide_eq_false_2 by tauto. lra.
  - rewrite bool_decide_eq_false_2 by tauto. lra.
  - rewrite bool_decide_eq_false_2 by tauto. lra.
Qed.

(** the sampled mask is a product of a horizontal and a vertical share *)
Lemma mask_factor B C H W n c ix iy :
  interpolate (ones [B; C; H; W]) n c ix iy
  = inside_weight W ix * inside_weight H iy.
Proof.
  unfold interpolate, inside_weight. cbv zeta. rewrite !pixel_ones.
  destruct (bool_decide (0 <= Zfloor ix < W)%Z),
           (bool_decide (0 <= Zfloor ix + 1 < W)%Z),
           (bool_decide (0 <= Zfloor iy < H)%Z),
           (bool_decide (0 <= Zfloor iy + 1 < H)%Z); ring.
Qed.

Lemma inside_weight_range size i : 0 <= inside_weight size i <= 1.
Proof.
  unfold inside_weight. cbv zeta.
  pose proof (Zfloor_bound i) as Hb. rewrite plus_IZR.
  destruct (bool_decide (0 <= Zfloor i < size)%Z),
           (bool_decide (0 <= Zfloor i + 1 < size)%Z); simpl; lra.
Qed.

Lemma inside_weight_inside size i :
  0 <= i <= IZR (size - 1) -> inside_weight size i = 1.
Proof.
  intros [Hl Hu]. unfold inside_weight. cbv zeta.
  pose proof (Zfloor_bound i) as Hb.
  assert (H0 : (0 <= Zfloor i)%Z) by (by apply Zfloor_lub).
  assert (H1 : (Zfloor i <= size - 1)%Z).
  { apply le_IZR. lra. }
  rewrite (bool_decide_eq_true_2 (0 <= Zfloor i < size)%Z) by lia.
  rewrite plus_IZR. simpl.
  destruct (bool_decide_reflect (0 <= Zfloor i + 1 < size)%Z) as [|Hout]; [lra|].
  assert (Zfloor i = size - 1)%Z as E by lia.
  rewrite E in *. lra.
Qed.

Lemma inside_weight_outside size i :
  i < - (1 / 10000) \/ IZR (size - 1) + 1 / 10000 < i ->
  inside_weight size i < 9999 / 10000.
Proof.
  intros Hout. unfold inside_weight. cbv zeta.
  pose proof (Zfloor_bound i) as Hb. rewrite plus_IZR.
  destruct (bool_decide_reflect (0 <= Zfloor i < size)%Z) as [Hin0|Hout0];
    destruct (bool_decide_reflect (0 <= Zfloor i + 1 < size)%Z) as [Hin1|Hout1];
    simpl.
  - exfalso. destruct Hout as [Hlt|Hgt].
    + assert (0 <= IZR (Zfloor i)) by (apply IZR_le; lia). lra.
    + assert (IZR (Zfloor i + 1) <= IZR (size - 1)) by (apply IZR_le; lia).
      rewrite plus_IZR in *. lra.
  - destruct Hout as [Hlt|Hgt].
    + assert (0 <= IZR (Zfloor i)) by (apply IZR_le; lia). lra.
    + assert (Zfloor i = size - 1)%Z as E by lia. rewrite E in *. lra.
  - destruct Hout as [Hlt|Hgt].
    + assert (Zfloor i = -1)%Z as E by lia. rewrite E in *. simpl in *. lra.
    + assert (IZR (Zfloor i + 1) <= IZR (size - 1)) by (apply IZR_le; lia).
      rewrite plus_IZR in *. lra.
  - lra.
Qed.

Lemma threshold_zero_below t idx :
  dat t idx < 9999 / 10000 -> dat (threshold t) idx = 0.
Proof.
  intros Hlt. destruct (threshold_binary t idx) as [[H0|H1] Hiff]; [done|].
  apply Hiff in H1. lra.
Qed.

Lemma threshold_one_at t idx :
  dat t idx = 1 -> dat (threshold t) idx = 1.
Proof.
  intros E. apply (threshold_binary t idx). lra.
Qed.

Lemma mask_below W H ix iy :
  inside_weight W ix < 9999 / 10000 \/ inside_weight H iy < 9999 / 10000 ->
  inside_weight W ix * inside_weight H iy < 9999 / 10000.
Proof.
  pose proof (inside_weight_range W ix). pose proof (inside_weight_range H iy).
  intros [?|?]; nra.
Qed.

(** what [warp] returns at one pixel, in pixel coordinates *)
Lemma warp_at a x flo B C H W :
  shape x = [B; C; H; W] -> shape flo = [B; 2%Z; H; W] ->
  (0 < H)%Z -> (0 < W)%Z ->
  exists out smask,
    warp a x flo = OK out /\ shape out = [B; C; H; W] /\
    forall n c h w, (0 <= n < B)%Z -> (0 <= c < C)%Z ->
                    (0 <= h < H)%Z -> (0 <= w < W)%Z ->
      let ix := sample_x a W flo n h w in
      let iy := sample_y a H flo n h w in
      dat smask [n; c; h; w] = inside_weight W ix * inside_weight H iy /\
      dat out [n; c; h; w]
        = interpolate x n c ix iy * dat (threshold smask) [n; c; h; w].
Proof.
  intros Ex Ef HH HW.
  destruct (warp_well_shaped a x flo B C H W Ex Ef HH HW)
    as (vg & o & sm & out & _ & _ & _ & Ew & So & D).
  exists out, sm. do 2 (split; [done|]).
  intros n c h w Hn Hc Hh Hw. cbv zeta.
  destruct (D n c h w Hn Hc Hh Hw) as (Do & Dsm & Dout). cbv zeta in Do, Dsm.
  rewrite Dout, Do, Dsm. rewrite Ex.
  rewrite (bilinear_interpolate a x B C H W) by done.
  rewrite (bilinear_interpolate a (ones [B; C; H; W]) B C H W) by done.
  rewrite mask_factor. done.
Qed.



(** the scaling of lines 266-267 and the un-normalisation of
    [grid_sample] with aligned corners cancel: the sample point is the
    pixel moved by the flow *)
Lemma unnormalize_scale size (p : R) :
  (2 <= size)%Z ->
  unnormalize true size (2 * p / IZR (Z.max (size - 1) 1) - 1) = p.
Proof.
  intros Hs. unfold unnormalize. rewrite Z.max_l by lia. rewrite minus_IZR.
  assert (2 <= IZR size) by (by apply IZR_le).
  field. lra.
Qed.

(** With aligned corners and an image of at least 2 x 2 pixels the
    sample point of pixel (h, w) is (w + flow_x, h + flow_y). *)
Theorem sample_point_aligned (flo : Tensor) (H W n h w : Z) :
  (2 <= H)%Z -> (2 <= W)%Z ->
  sample_x true W flo n h w = IZR w + dat flo [n; 0%Z; h; w] /\
  sample_y true H flo n h w = IZR h + dat flo [n; 1%Z; h; w].
Proof.
  intros HH HW. unfold sample_x, sample_y.
  by rewrite !unnormalize_scale.
Qed.

Lemma interpolate_at_pixel t n c (k l : Z) :
  interpolate t n c (IZR k) (IZR l) = pixel t n c l k.
Proof.
  unfold interpolate. cbv zeta. rewrite !ZfloorZ, !plus_IZR. simpl. ring.
Qed.

(** A flow of whole pixels shifts the image.  With aligned corners and
    an image of at least 2 x 2 pixels, a pixel whose flow is the integer
    vector (dx, dy) receives the input pixel (h + dy, w + dx), or zero if
    that pixel lies outside the image. *)
Theorem warp_integer_shift (x flo : Tensor) (B C H W n c h w dx dy : Z) :
  shape x = [B; C; H; W] -> shape flo = [B; 2%Z; H; W] ->
  (2 <= H)%Z -> (2 <= W)%Z ->
  (0 <= n < B)%Z -> (0 <= c < C)%Z -> (0 <= h < H)%Z -> (0 <= w < W)%Z ->
  dat flo [n; 0%Z; h; w] = IZR dx -> dat flo [n; 1%Z; h; w] = IZR dy ->
  exists out,
    warp true x flo = OK out /\
    dat out [n; c; h; w]
      = if bool_decide (0 <= w + dx < W /\ 0 <= h + dy < H)%Z
        then dat x [n; c; (h + dy)%Z; (w + dx)%Z] else 0.
Proof.
  intros Ex Ef HH HW Hn Hc Hh Hw Fx Fy.
  destruct (warp_at true x flo B C H W Ex Ef) as (out & sm & Ew & _ & D); [lia..|].
  exists out. split; [done|].
  destruct (D n c h w Hn Hc Hh Hw) as [Dsm Dout]. cbv zeta in Dsm, Dout.
  unfold sample_x, sample_y in Dsm, Dout.
  rewrite !unnormalize_scale, Fx, Fy, <- !plus_IZR in Dsm, Dout by done.
  rewrite interpolate_at_pixel in Dout.
  rewrite Dout. unfold pixel. rewrite Ex.
  case_bool_decide as Hin.
  - rewrite (threshold_one_at sm); [ring|].
    rewrite Dsm, !inside_weight_inside; [ring| |].
    + rewrite minus_IZR. split; [apply IZR_le; lia|].
      rewrite <- minus_IZR. apply IZR_le. lia.
    + rewrite minus_IZR. split; [apply IZR_le; lia|].
      rewrite <- minus_IZR. apply IZR_le. lia.
  - ring.
Qed.

Lemma unnormalize_unaligned_border size (k : Z) :
  (0 <= k < size)%Z -> (k = 0 \/ k = size - 1)%Z ->
  let i := unnormalize false size
             (2 * (IZR k + 0) / IZR (Z.max (size - 1) 1) - 1) in
  i < - (1 / 10000) \/ IZR (size - 1) + 1 / 10000 < i.
Proof.
  intros Hk Hb. cbv zeta. unfold unnormalize.
  destruct (Z.eq_dec k 0%Z) as [->|Hk0].
  - left. replace (2 * (0 + 0) / IZR (Z.max (size - 1) 1) - 1 + 1) with 0
      by (unfold Rdiv; ring).
    lra.
  - right. assert (k = size - 1)%Z as -> by lia.
    rewrite Z.max_l by lia. rewrite minus_IZR.
    assert (2 <= IZR size) by (apply IZR_le; lia).
    replace (2 * (IZR size - 1 + 0) / (IZR size - 1) - 1 + 1) with 2
      by (field; lra).
    lra.
Qed.

(** C3.  Under a zero flow [warp] is not the identity when [grid_sample]
    samples as the calls of lines 270 and 272 ask it to, with no
    [align_corners] (since version 1.3 of the library: corners not
    aligned).  For every tensor [x] of shape (B, C, H, W) and every flow of
    shape (B, 2, H, W) that is zero at a pixel of the first or last row or
    column, [warp] returns, and its result is 0 at that pixel, in every
    channel and whatever [x] holds there: the sample point of a border
    pixel lies half a pixel outside the image, its mask value is no more
    than 1/2, and line 274 zeroes it.  The scaling of lines 266-267 is the
    one for aligned corners, under which the zero flow does give the
    identity ([warp_zero_flow_identity]); the call does not ask for
    them. *)
Theorem warp_unaligned_zero_flow_border (x flo : Tensor)
    (B C H W n c h w : Z) :
  shape x = [B; C; H; W] -> shape flo = [B; 2%Z; H; W] ->
  (0 <= n < B)%Z -> (0 <= c < C)%Z -> (0 <= h < H)%Z -> (0 <= w < W)%Z ->
  dat flo [n; 0%Z; h; w] = 0 -> dat flo [n; 1%Z; h; w] = 0 ->
  (w = 0 \/ w = W - 1 \/ h = 0 \/ h = H - 1)%Z ->
  exists out, warp false x flo = OK out /\ dat out [n; c; h; w] = 0.
Proof.
  intros Ex Ef Hn Hc Hh Hw Fx Fy Hb.
  destruct (warp_at false x flo B C H W Ex Ef) as (out & sm & Ew & _ & D); [lia..|].
  exists out. split; [done|].
  destruct (D n c h w Hn Hc Hh Hw) as [Dsm Dout]. cbv zeta in Dsm, Dout.
  rewrite Dout, (threshold_zero_below sm); [ring|].
  rewrite Dsm. apply mask_below. unfold sample_x, sample_y. rewrite Fx, Fy.
  destruct (Z.eq_dec w 0%Z) as [Hw0|Hw0];
    [left; apply inside_weight_outside, unnormalize_unaligned_border; lia|].
  destruct (Z.eq_dec w (W - 1)%Z) as [HwW|HwW];
    [left; apply inside_weight_outside, unnormalize_unaligned_border; lia|].
  right. apply inside_weight_outside, unnormalize_unaligned_border; lia.
Qed.





End WarpGeometry.

(** ** [MotionNet.forward]: bounds and refusals *)

Section MotionHeadBounds.
#[local] Open Scope R_scope.





End MotionHeadBounds.

(** ** [FlowMotionNet.get_motion]: the rotations *)

Section MotionDecoderRotations.
#[local] Open Scope R_scope.






End MotionDecoderRotations.

(** ** Instances *)

Section NumericInstances.
#[local] Open Scope R_scope.


Lemma warp_unaligned_zero_flow_border_witness :
  exists out,
    warp false x_pair (zeros [1; 2; 1; 2]%Z) = OK out /\
    dat out [0; 0; 0; 0]%Z = 0.
Proof.
  apply (warp_unaligned_zero_flow_border x_pair (zeros [1; 2; 1; 2]%Z) 1 1 1 2);
    [reflexivity | reflexivity | lia | lia | lia | lia
    | reflexivity | reflexivity | lia].
Defined.









End NumericInstances.

(** * Properties of the architectural view *)

Import Arch Pipeline Shapes Graph Describe.

(** ** The constructors *)

Section ConstructorFacts.

Lemma ctor_bind_OK {A B : Type} (m : Ctor A) (f : A -> Ctor B) h b h' :
  (m ≫= f) h = OK (b, h') ->
  exists a h1, m h = OK (a, h1) /\ f a h1 = OK (b, h').
Proof.
  unfold mbind, Ctor_bind, ctor_bind.
  destruct (m h) as [[a h1]|e]; [eauto | discriminate].
Qed.

Lemma read_OK r h l h' : read r h = OK (l, h') -> h !! r = Some l /\ h' = h.
Proof. unfold read. destruct (h !! r); [by intros [= -> ->] | discriminate]. Qed.

Lemma getitem_OK r i h v h' :
  getitem r i h = OK (v, h') -> h' = h.
Proof.
  unfold getitem. intros E. apply ctor_bind_OK in E.
  destruct E as (l & h1 & E1 & E2). apply read_OK in E1 as [_ ->].
  destruct (l !! i); [by injection E2 | discriminate].
Qed.

Lemma getlast_OK r h v h' : getlast r h = OK (v, h') -> h' = h.
Proof.
  unfold getlast. intros E. apply ctor_bind_OK in E.
  destruct E as (l & h1 & E1 & E2). apply read_OK in E1 as [_ ->].
  destruct (last l); [by injection E2 | discriminate].
Qed.

Lemma blocks_OK block sizes i n h ms h' :
  blocks block sizes i n h = OK (ms, h') -> h' = h.
Proof.
  revert i ms h'. induction n as [|n IH]; intros i ms h'; simpl.
  - by intros [= _ ->].
  - intros E. apply ctor_bind_OK in E. destruct E as (a & h1 & E1 & E).
    apply getitem_OK in E1 as ->.
    apply ctor_bind_OK in E. destruct E as (b & h2 & E2 & E).
    apply getitem_OK in E2 as ->.
    apply ctor_bind_OK in E. destruct E as (rest & h3 & E3 & E).
    apply IH in E3 as ->. by injection E.
Qed.

Lemma setitem_OK r i v h u h' :
  setitem r i v h = OK (u, h') ->
  exists l, h !! r = Some l /\ (i < length l)%nat /\ h' = <[r := <[i := v]> l]> h.
Proof.
  unfold setitem. intros E. apply ctor_bind_OK in E.
  destruct E as (l & h1 & E1 & E2). apply read_OK in E1 as [Hl ->].
  case_bool_decide; [|discriminate]. injection E2 as _ <-. eauto.
Qed.

(** C10.  [MotionNet.__init__] writes into the caller's list.  Whenever the
    constructor returns on a heap [h], leaving the heap [h'], the list
    object that the caller passed as [conv_sizes] was non-empty, holds 36
    in its first place in [h'] with its other elements as before, and every
    other list object of the heap is unchanged.  So the caller's list has
    been changed whenever its first element was not already 36. *)
Theorem MotionNet_init_overwrites_conv_sizes
    (conv_sizes lin_sizes : loc) (H W : Z) (h h' : Heap) (m : Module) :
  MotionNet_init conv_sizes lin_sizes H W h = OK (m, h') ->
  exists c0 rest,
    h !! conv_sizes = Some (c0 :: rest) /\
    h' !! conv_sizes = Some (36 :: rest) /\
    (forall r, r <> conv_sizes -> h' !! r = h !! r) /\
    (c0 <> 36 -> h' !! conv_sizes <> h !! conv_sizes).
Proof.
  unfold MotionNet_init. intros E.
  apply ctor_bind_OK in E. destruct E as (u & h0 & E0 & E).
  case_bool_decide; [|discriminate]. injection E0 as _ <-.
  apply ctor_bind_OK in E. destruct E as (c0 & h1 & E1 & E).
  apply getitem_OK in E1 as ->.
  apply ctor_bind_OK in E. destruct E as (u' & h2 & E2 & E).
  apply setitem_OK in E2 as (l & Hl & Hlen & ->).
  apply ctor_bind_OK in E. destruct E as (cs & h3 & E3 & E).
  apply read_OK in E3 as [_ ->].
  apply ctor_bind_OK in E. destruct E as (cl & h4 & E4 & E).
  apply blocks_OK in E4 as ->.
  apply ctor_bind_OK in E. destruct E as (ls & h5 & E5 & E).
  apply read_OK in E5 as [_ ->].
  apply ctor_bind_OK in E. destruct E as (dl & h6 & E6 & E).
  apply blocks_OK in E6 as ->.
  apply ctor_bind_OK in E. destruct E as (ll & h7 & E7 & E).
  apply getlast_OK in E7 as ->.
  injection E as _ <-.
  destruct l as [|c0' rest]; [simpl in Hlen; lia|].
  exists c0', rest. split; [done|]. split.
  { by rewrite lookup_insert_eq. }
  split.
  { intros r Hr. by rewrite lookup_insert_ne. }
  intros Hc. rewrite lookup_insert_eq, Hl. intros [= Heq]. by apply Hc.
Qed.

Lemma Module_nested_ind (P : Module -> Prop) :
  (forall c, P (Conv2dM c)) ->
  (forall c, P (ConvTranspose2dM c)) ->
  (forall n, P (BatchNorm2dM n)) ->
  (forall a i, P (LeakyReLUM a i)) ->
  (forall l, P (LinearM l)) ->
  (forall s, P (UpsamplingBilinear2dM s)) ->
  (forall d, P (CorrelationLayerM d)) ->
  (forall a b H W, P (EpipolarCorrelationLayerM a b H W)) ->
  (forall layers, Forall P layers -> P (SequentialM layers)) ->
  (forall H W subs, Forall (fun p => P p.2) subs -> P (MotionNetM H W subs)) ->
  (forall subs, Forall (fun p => P p.2) subs -> P (FlowMotionNetM subs)) ->
  forall m, P m.
Proof.
  intros H1 H2 H3 H4 H5 H6 H7 H8 Hs Hm Hf.
  fix IH 1.
  intros [c|c|n|a i|l|s|d|a b H W|layers|H W subs|subs];
    [apply H1 | apply H2 | apply H3 | apply H4 | apply H5 | apply H6
    | apply H7 | apply H8 | | | ].
  - apply Hs. induction layers as [|x xs IHl]; constructor; [apply IH | exact IHl].
  - apply Hm. induction subs as [|[n x] xs IHl]; constructor; [apply IH | exact IHl].
  - apply Hf. induction subs as [|[n x] xs IHl]; constructor; [apply IH | exact IHl].
Qed.

Lemma kaiming_init_initialised c :
  weight (kaiming_init c) = KaimingNormal fan_in /\
  forall b, bias (kaiming_init c) = Some b -> b = Zeros.
Proof.
  split; [reflexivity|]. simpl. destruct (bias c); intros b [=]; done.
Qed.

Lemma init_weights_initialised t m :
  m ∈ modules (init_weights t) -> initialised m.
Proof.
  revert m. induction t as [c|c|n|a i|l|s|d|a b H W|layers IH|H W subs IH|subs IH]
    using Module_nested_ind; intros m; simpl;
    try (intros Hm; apply list_elem_of_singleton in Hm; subst;
         first [exact I | apply kaiming_init_initialised]).
  - intros Hm. apply elem_of_cons in Hm as [->|Hm]; [exact I|].
    apply list_elem_of_In, in_flat_map in Hm. destruct Hm as (x & Hx & Hm).
    apply in_map_iff in Hx. destruct Hx as (y & <- & Hy).
    rewrite Forall_forall in IH. apply (IH y); [by apply list_elem_of_In|].
    by apply list_elem_of_In.
  - intros Hm. apply elem_of_cons in Hm as [->|Hm]; [exact I|].
    apply list_elem_of_In, in_flat_map in Hm. destruct Hm as ([n x] & Hx & Hm).
    apply in_map_iff in Hx. destruct Hx as ([n' y] & [= <- <-] & Hy).
    rewrite Forall_forall in IH. apply (IH (n', y)); [by apply list_elem_of_In|].
    by apply list_elem_of_In.
  - intros Hm. apply elem_of_cons in Hm as [->|Hm]; [exact I|].
    apply list_elem_of_In, in_flat_map in Hm. destruct Hm as ([n x] & Hx & Hm).
    apply in_map_iff in Hx. destruct Hx as ([n' y] & [= <- <-] & Hy).
    rewrite Forall_forall in IH. apply (IH (n', y)); [by apply list_elem_of_In|].
    by apply list_elem_of_In.
Qed.

Lemma getitem_returns r i h l v :
  h !! r = Some l -> l !! i = Some v -> getitem r i h = OK (v, h).
Proof.
  intros Hr Hi. unfold getitem, read, mbind, Ctor_bind, ctor_bind.
  by rewrite Hr, Hi.
Qed.

Lemma blocks_returns block sizes h l n i :
  h !! sizes = Some l -> (i + n < length l)%nat ->
  blocks block sizes i n h = OK (block_list block l i n, h).
Proof.
  intros Hl. revert i. induction n as [|n IH]; intros i Hi; simpl.
  - done.
  - destruct (lookup_lt_is_Some_2 l i) as [a Ha]; [lia|].
    destruct (lookup_lt_is_Some_2 l (i + 1)) as [b Hb]; [lia|].
    unfold mbind, Ctor_bind, ctor_bind.
    rewrite (getitem_returns _ _ _ _ _ Hl Ha), (getitem_returns _ _ _ _ _ Hl Hb).
    rewrite IH by lia.
    by rewrite (list_lookup_total_correct _ _ _ Ha),
               (list_lookup_total_correct _ _ _ Hb).
Qed.

Lemma MotionNet_init_returns conv_sizes lin_sizes H W h c0 cs ls :
  h !! conv_sizes = Some (c0 :: cs) -> h !! lin_sizes = Some ls ->
  conv_sizes <> lin_sizes -> ls <> [] -> 0 <= H -> 0 <= W ->
  MotionNet_init conv_sizes lin_sizes H W h
  = OK (MotionNet_tree c0 cs ls H W, <[conv_sizes := 36 :: cs]> h).
Proof.
  intros Hc Hl Hne Hls HH HW.
  set (h1 := <[conv_sizes := 36 :: cs]> h).
  assert (Hc1 : h1 !! conv_sizes = Some (36 :: cs)) by apply lookup_insert_eq.
  assert (Hl1 : h1 !! lin_sizes = Some ls).
  { unfold h1. by rewrite lookup_insert_ne. }
  pose proof (blocks_returns get_conv_block conv_sizes h1 (36 :: cs)
                (length (36 :: cs) - 1) 0 Hc1) as Hcl.
  pose proof (blocks_returns get_linear_block lin_sizes h1 ls
                (length ls - 1) 0 Hl1) as Hdl.
  destruct (last ls) as [ll|] eqn:Hlast.
  2:{ apply last_None in Hlast. done. }
  unfold MotionNet_init, mbind, Ctor_bind, ctor_bind.
  rewrite bool_decide_eq_true_2 by done. simpl.
  rewrite (getitem_returns conv_sizes 0 h (c0 :: cs) c0 Hc eq_refl).
  unfold setitem, read, mbind, Ctor_bind, ctor_bind. rewrite Hc.
  rewrite bool_decide_eq_true_2 by (simpl; lia).
  unfold write. simpl. change (32 + 4) with 36. fold h1.
  rewrite Hc1, Hcl by (simpl; lia). rewrite Hl1, Hdl.
  2:{ destruct ls; [done | simpl; lia]. }
  unfold getlast, read, mbind, Ctor_bind, ctor_bind. rewrite Hl1, Hlast.
  unfold MotionNet_tree. rewrite Hlast. simpl.
  by rewrite Nat.sub_0_r.
Qed.

(** two list displays and the constructor call that receives them *)
Lemma MotionNet_call_returns (c0 : Z) (cs ls : list Z) (H W : Z) (h : Heap) :
  ls <> [] -> 0 <= H -> 0 <= W ->
  exists h', forall (B : Type) (k : Module -> Ctor B),
    (conv_sizes ← alloc (c0 :: cs);
     lin_sizes ← alloc ls;
     m ← MotionNet_init conv_sizes lin_sizes H W;
     k m) h = k (MotionNet_tree c0 cs ls H W) h'.
Proof.
  intros Hls HH HW.
  set (r1 := fresh (dom h)). set (h1 := <[r1 := c0 :: cs]> h).
  set (r2 := fresh (dom h1)). set (h2 := <[r2 := ls]> h1).
  assert (Hne : r1 <> r2).
  { intros E. pose proof (is_fresh (dom h1)) as Hf. fold r2 in Hf.
    apply Hf. rewrite <- E. unfold h1. rewrite dom_insert_L. set_solver. }
  pose proof (MotionNet_init_returns r1 r2 H W h2 c0 cs ls) as Hm.
  exists (<[r1 := 36 :: cs]> h2). intros B k.
  unfold mbind, Ctor_bind, ctor_bind, alloc. fold r1 h1 r2 h2.
  rewrite Hm; try done.
  - unfold h2. rewrite lookup_insert_ne by done. apply lookup_insert_eq.
  - apply lookup_insert_eq.
Qed.

(** the sub-modules are the same whatever the heap holds *)
Lemma FlowMotionNet_build_returns (md : Z) :
  exists subs, forall h : Heap, exists h',
    FlowMotionNet_build md h = OK (subs, h').
Proof.
  eexists. intros h.
  unfold FlowMotionNet_build. cbv zeta.
  edestruct (MotionNet_call_returns) as (h3 & E3);
    [| | | rewrite E3]; [done | lia | lia |].
  edestruct (MotionNet_call_returns) as (h2 & E2);
    [| | | rewrite E2]; [done | lia | lia |].
  edestruct (MotionNet_call_returns) as (h1 & E1);
    [| | | rewrite E1]; [done | lia | lia |].
  eexists. reflexivity.
Qed.

Lemma FlowMotionNet_init_tree (md : Z) (h : Heap) :
  exists h', FlowMotionNet_init md h = OK (FlowMotionNet_tree md, h').
Proof.
  destruct (FlowMotionNet_build_returns md) as (subs & Hsubs).
  assert (Hinit : forall h0, exists h', FlowMotionNet_init md h0
                    = OK (init_weights (FlowMotionNetM subs), h')).
  { intros h0. destruct (Hsubs h0) as (h' & E). exists h'.
    unfold FlowMotionNet_init, mbind, Ctor_bind, ctor_bind. by rewrite E. }
  destruct (Hinit ∅) as (h0 & E0). destruct (Hinit h) as (h' & E).
  exists h'. unfold FlowMotionNet_tree. by rewrite E0.
Qed.

(** C9.  Initialisation of the convolutions.  For every [md] and any heap,
    [FlowMotionNet.__init__] returns a network in which every module that
    [self.modules()] yields, the layers inside the three motion heads
    included, is [initialised]: if it is a convolution or a transposed
    convolution, its weight comes from [kaiming_normal_] in mode [fan_in],
    and its bias, where it has one, is zero. *)
Theorem conv_weights_kaiming_bias_zero (md : Z) (h : Heap) :
  exists net h',
    FlowMotionNet_init md h = OK (net, h') /\
    forall m, m ∈ modules net -> initialised m.
Proof.
  destruct (FlowMotionNet_build_returns md) as (subs & Hsubs).
  destruct (Hsubs h) as (h' & E).
  exists (init_weights (FlowMotionNetM subs)), h'. split.
  - unfold FlowMotionNet_init, mbind, Ctor_bind, ctor_bind. by rewrite E.
  - intros m. apply init_weights_initialised.
Qed.

Lemma MotionNet_init_overwrites_conv_sizes_witness :
  exists m h',
    MotionNet_init 1%positive 2%positive 32 40 motion_3_lists = OK (m, h') /\
    exists c0 rest,
      motion_3_lists !! 1%positive = Some (c0 :: rest) /\
      h' !! 1%positive = Some (36 :: rest) /\
      (forall r, r <> 1%positive -> h' !! r = motion_3_lists !! r) /\
      (c0 <> 36 -> h' !! 1%positive <> motion_3_lists !! 1%positive).
Proof.
  do 2 eexists. split; [vm_compute; reflexivity|].
  eapply (MotionNet_init_overwrites_conv_sizes 1%positive 2%positive 32 40
            motion_3_lists).
  vm_compute. reflexivity.
Defined.

(** the default network has 76 convolutions, transposed or not *)
Lemma FlowMotionNet_conv_count :
  exists net h', FlowMotionNet_init 4 ∅ = OK (net, h') /\
    length (filter (fun m => is_conv m = true) (modules net)) = 76%nat.
Proof. do 2 eexists. split; [vm_compute; reflexivity|]. vm_compute. reflexivity. Qed.

End ConstructorFacts.

(** ** The constructors, case by case *)

Section ConstructorContracts.











End ConstructorContracts.

(** ** [FlowMotionNet.forward] *)

Ltac solve_test :=
  repeat split;
  first [ reflexivity | lia | (vm_compute; first [reflexivity | discriminate | done]) ].

(** replace a closed integer expression by its value *)
Ltac to_numeral t :=
  let v := eval vm_compute in t in
  lazymatch v with
  | Z0 => change t with v
  | Zpos _ => change t with v
  | Zneg _ => change t with v
  end.

Ltac Znorm :=
  repeat match goal with
  | |- context [conv_out ?a ?b ?c ?d ?e] => to_numeral (conv_out a b c d e)
  | |- context [deconv_out ?a ?b ?c ?d ?e] => to_numeral (deconv_out a b c d e)
  | |- context [Z.add ?a ?b] => to_numeral (Z.add a b)
  | |- context [Z.mul ?a ?b] => to_numeral (Z.mul a b)
  | |- context [Z.sub ?a ?b] => to_numeral (Z.sub a b)
  | |- context [Z.pow ?a ?b] => to_numeral (Z.pow a b)
  | |- context [Z.max ?a ?b] => to_numeral (Z.max a b)
  | |- context [Z.min ?a ?b] => to_numeral (Z.min a b)
  | |- context [Z.of_nat ?a] => to_numeral (Z.of_nat a)
  end.

Ltac step :=
  first
    [ rewrite bool_decide_eq_true_2 by solve_test
    | rewrite bool_decide_eq_false_2 by lia
    | rewrite Z.mul_1_r
    | rewrite bdim_refl
    | rewrite bdim_one_r ].

Ltac stage y := exists y; repeat split; vm_compute; reflexivity.

Ltac stages_modules :=
  repeat (constructor; [do 2 eexists; vm_compute; reflexivity|]); constructor.

Ltac no_relu :=
  vm_compute; repeat (constructor; [discriminate|]); constructor.

Ltac handed x flow up up_flow H W :=
  exists x, flow, up, up_flow; eexists; exists H, W;
  repeat split; try (vm_compute; reflexivity).

Section PipelineFacts.

Lemma forward_shapes_batch (B : Z) :
  1 <= B ->
  forward_shapes net4 [B; 6; 256; 320]
  = OK (cons B <$> item_run.1.1, cons B <$> item_run.1.2, cons B <$> item_run.2).
Proof.
  intros HB. unfold forward_shapes, forward, net4, call3, grow.
  unfold mbind, Logged_bind, mret, Logged_ret. cbn beta.
  cbn.
  repeat (Znorm; step; cbn).
  reflexivity.
Qed.

#[local] Open Scope string_scope.

Lemma logged_bind_OK {A C : Type} (m : Logged A) (f : A -> Logged C) log c log' :
  (m ≫= f) log = OK (c, log') ->
  exists a log1, m log = OK (a, log1) /\ f a log1 = OK (c, log').
Proof.
  unfold mbind, Logged_bind.
  destruct (m log) as [[a log1]|e]; [eauto | discriminate].
Qed.

(** whatever the network and the input: a pass that returns, returns five
    flows and three motion vectors *)
Lemma forward_shapes_lengths net x flows motions log :
  forward_shapes net x = OK (flows, motions, log) ->
  length flows = 5%nat /\ length motions = 3%nat.
Proof.
  unfold forward_shapes, forward. intros E.
  repeat (apply logged_bind_OK in E;
          let a := fresh "a" in let l := fresh "l" in
          destruct E as (a & l & _ & E);
          lazymatch type of a with
          | prod _ _ => destruct a
          | _ => idtac
          end;
          cbn beta iota in E).
  injection E as <- <- _. done.
Qed.

Lemma forward_shapes_default (B : positive) :
  forward_shapes (FlowMotionNet_tree 4) [Z.pos B; 6; 256; 320]
  = OK (cons (Z.pos B) <$> item_run.1.1, cons (Z.pos B) <$> item_run.1.2,
        cons (Z.pos B) <$> item_run.2).
Proof. apply (forward_shapes_batch (Z.pos B)). lia. Qed.

(** C7.  The feature pyramid.  In the network built with the default
    [md = 4]:
    - each of the five levels has three layers, [conv<l>a], [conv<l>aa],
      [conv<l>b], each of them a 3x3 convolution followed by batch
      normalisation and LeakyReLU(0.1); the first has stride 2, the other
      two stride 1; the widths are 3 -> 16 -> 32 -> 64 -> 96 -> 128;
    - [forward] splits the input into the two images and sends each through
      the same three named layers at each level, the output of one level
      being the input of the next;
    - a stride-2 layer halves an even height or width and a stride-1 layer
      keeps it; on an input of shape (B, 6, 256, 320), for every batch size
      B >= 1, [forward] returns and the five feature maps of either image
      have the shapes (B, 16, 128, 160), (B, 32, 64, 80), (B, 64, 32, 40),
      (B, 96, 16, 20), (B, 128, 8, 10). *)
Theorem feature_pyramid (B : positive) :
  let net := FlowMotionNet_tree 4 in
  let g := the_graph in
  let b := Z.pos B in
  pyramid_layers net "1" 3 16 /\ pyramid_layers net "2" 16 32 /\
  pyramid_layers net "3" 32 64 /\ pyramid_layers net "4" 64 96 /\
  pyramid_layers net "5" 96 128 /\
  exists im1 im2 c11 c21 c12 c22 c13 c23 c14 c24 c15 c25 : nat,
    g !! im1 = Some (mkNode (Slice None (Some 3)) [0%nat]) /\
    g !! im2 = Some (mkNode (Slice (Some 3) None) [0%nat]) /\
    chain3 g "conv1a" "conv1aa" "conv1b" im1 c11 /\
    chain3 g "conv1a" "conv1aa" "conv1b" im2 c21 /\
    chain3 g "conv2a" "conv2aa" "conv2b" c11 c12 /\
    chain3 g "conv2a" "conv2aa" "conv2b" c21 c22 /\
    chain3 g "conv3a" "conv3aa" "conv3b" c12 c13 /\
    chain3 g "conv3a" "conv3aa" "conv3b" c22 c23 /\
    chain3 g "conv4a" "conv4aa" "conv4b" c13 c14 /\
    chain3 g "conv4a" "conv4aa" "conv4b" c23 c24 /\
    chain3 g "conv5a" "conv5aa" "conv5b" c14 c15 /\
    chain3 g "conv5a" "conv5aa" "conv5b" c24 c25 /\
    (forall H, conv_out (2 * H) 3 2 1 1 = H /\ conv_out H 3 1 1 1 = H) /\
    exists flows motions log,
      forward_shapes net [b; 6; 256; 320] = OK (flows, motions, log) /\
      log !! c11 = Some [b; 16; 128; 160] /\ log !! c21 = Some [b; 16; 128; 160] /\
      log !! c12 = Some [b; 32; 64; 80] /\ log !! c22 = Some [b; 32; 64; 80] /\
      log !! c13 = Some [b; 64; 32; 40] /\ log !! c23 = Some [b; 64; 32; 40] /\
      log !! c14 = Some [b; 96; 16; 20] /\ log !! c24 = Some [b; 96; 16; 20] /\
      log !! c15 = Some [b; 128; 8; 10] /\ log !! c25 = Some [b; 128; 8; 10].
Proof.
  cbv zeta.
  do 5 (split; [repeat split; vm_compute; reflexivity|]).
  exists 1%nat, 2%nat, 5%nat, 8%nat, 11%nat, 14%nat, 17%nat, 20%nat,
         23%nat, 26%nat, 29%nat, 32%nat.
  do 2 (split; [vm_compute; reflexivity|]).
  split; [exists 3%nat, 4%nat; repeat split; vm_compute; reflexivity|].
  split; [exists 6%nat, 7%nat; repeat split; vm_compute; reflexivity|].
  split; [exists 9%nat, 10%nat; repeat split; vm_compute; reflexivity|].
  split; [exists 12%nat, 13%nat; repeat split; vm_compute; reflexivity|].
  split; [exists 15%nat, 16%nat; repeat split; vm_compute; reflexivity|].
  split; [exists 18%nat, 19%nat; repeat split; vm_compute; reflexivity|].
  split; [exists 21%nat, 22%nat; repeat split; vm_compute; reflexivity|].
  split; [exists 24%nat, 25%nat; repeat split; vm_compute; reflexivity|].
  split; [exists 27%nat, 28%nat; repeat split; vm_compute; reflexivity|].
  split; [exists 30%nat, 31%nat; repeat split; vm_compute; reflexivity|].
  split.
  { intros H. unfold conv_out. split; [|rewrite Z.div_1_r; lia].
    assert ((2 * H + 2 * 1 - 1 * (3 - 1) - 1) `div` 2 = H - 1) as ->; [|lia].
    symmetry. apply (Z.div_unique _ 2 (H - 1) 1); lia. }
  do 3 eexists. split; [apply forward_shapes_default|].
  repeat split; vm_compute; reflexivity.
Qed.

(** C6.  The decoders.  In the run of [forward] on an input of shape
    (B, 6, 256, 320), B >= 1, with the default network, each of the levels
    5, 4, 3, 2, 1 is a [dense_decoder]: five stages
    [x = cat(conv<L>_<i>(x), x)], each of which leaves [x] with more
    channels than before; each [conv<L>_<i>] is a 3x3 convolution with
    LeakyReLU(0.1); the result of the fifth stage goes to
    [predict_flow<L>], a single 3x3 convolution from all the accumulated
    channels to 2 channels, whose output has 2 channels and is not passed
    to any nonlinearity. *)
Theorem dense_decoders (B : positive) :
  let net := FlowMotionNet_tree 4 in
  exists flows motions log,
    forward_shapes net [Z.pos B; 6; 256; 320] = OK (flows, motions, log) /\
    dense_decoder net the_graph log "5" /\
    dense_decoder net the_graph log "4" /\
    dense_decoder net the_graph log "3" /\
    dense_decoder net the_graph log "2" /\
    dense_decoder net the_graph log "1".
Proof.
  cbv zeta. do 3 eexists. split; [apply forward_shapes_default|].
  split; [|split; [|split; [|split]]].
  - exists 35%nat, 37%nat, 39%nat, 41%nat, 43%nat, 45%nat, 46%nat.
    split; [stage 36%nat|]. split; [stage 38%nat|]. split; [stage 40%nat|].
    split; [stage 42%nat|]. split; [stage 44%nat|].
    split; [vm_compute; reflexivity|]. split; [stages_modules|].
    split; [vm_compute; reflexivity|]. split; [vm_compute; reflexivity|]. no_relu.
  - exists 53%nat, 55%nat, 57%nat, 59%nat, 61%nat, 63%nat, 64%nat.
    split; [stage 54%nat|]. split; [stage 56%nat|]. split; [stage 58%nat|].
    split; [stage 60%nat|]. split; [stage 62%nat|].
    split; [vm_compute; reflexivity|]. split; [stages_modules|].
    split; [vm_compute; reflexivity|]. split; [vm_compute; reflexivity|]. no_relu.
  - exists 71%nat, 73%nat, 75%nat, 77%nat, 79%nat, 81%nat, 82%nat.
    split; [stage 72%nat|]. split; [stage 74%nat|]. split; [stage 76%nat|].
    split; [stage 78%nat|]. split; [stage 80%nat|].
    split; [vm_compute; reflexivity|]. split; [stages_modules|].
    split; [vm_compute; reflexivity|]. split; [vm_compute; reflexivity|]. no_relu.
  - exists 91%nat, 93%nat, 95%nat, 97%nat, 99%nat, 101%nat, 102%nat.
    split; [stage 92%nat|]. split; [stage 94%nat|]. split; [stage 96%nat|].
    split; [stage 98%nat|]. split; [stage 100%nat|].
    split; [vm_compute; reflexivity|]. split; [stages_modules|].
    split; [vm_compute; reflexivity|]. split; [vm_compute; reflexivity|]. no_relu.
  - exists 111%nat, 113%nat, 115%nat, 117%nat, 119%nat, 121%nat, 123%nat.
    split; [stage 112%nat|]. split; [stage 114%nat|]. split; [stage 116%nat|].
    split; [stage 118%nat|]. split; [stage 120%nat|].
    split; [vm_compute; reflexivity|]. split; [stages_modules|].
    split; [vm_compute; reflexivity|]. split; [vm_compute; reflexivity|]. no_relu.
Qed.

(** C5.  The flow handed to the next finer level.  In the run of [forward]
    on an input of shape (B, 6, 256, 320), B >= 1, with the default
    network, for each of the levels L = 5, 4, 3, 2: the flow that
    [predict_flow<L>] returns is read only by [deconv<L>], which is
    [UpsamplingBilinear2d(scale_factor=2)] (and, at the levels that have
    one, by the motion head of the same level L); the upsampled flow is
    read only by the multiplication by 2.0; and the doubled flow, of twice
    the height and twice the width, is what level L-1 uses: [warp] and the
    decoder input at levels 4 and 3, the epipolar correlation and the
    decoder input at levels 2 and 1. *)
Theorem flow_upsampled_and_doubled (B : positive) :
  let net := FlowMotionNet_tree 4 in
  exists flows motions log,
    forward_shapes net [Z.pos B; 6; 256; 320] = OK (flows, motions, log) /\
    handed_down net the_graph log "5" [Warp; Cat] /\
    handed_down net the_graph log "4" [Warp; Cat] /\
    handed_down net the_graph log "3" [Call "epi_corr2"; Cat] /\
    handed_down net the_graph log "2" [Call "epi_corr1"; Cat].
Proof.
  cbv zeta. do 3 eexists. split; [apply forward_shapes_default|].
  split; [|split; [|split]].
  - handed 45%nat 46%nat 47%nat 48%nat 8 10.
    vm_compute. repeat constructor.
  - handed 63%nat 64%nat 65%nat 66%nat 16 20.
    vm_compute. repeat constructor.
  - handed 81%nat 82%nat 83%nat 84%nat 32 40.
    vm_compute. constructor; [by left|]. constructor; [by right|]. constructor.
  - handed 101%nat 102%nat 103%nat 104%nat 64 80.
    vm_compute. constructor; [by left|]. constructor; [by right|]. constructor.
Qed.

(** C8.  What [forward] returns.  The constructor with [md = 4] returns the
    network [FlowMotionNet_tree 4] on any heap.  On an input of shape
    (B, 6, 256, 320), for every batch size B >= 1, [forward] returns a pair
    of lists: five flows of the shapes (B, 2, 128, 160), (B, 2, 64, 80),
    (B, 2, 32, 40), (B, 2, 16, 20), (B, 2, 8, 10), which are the outputs of
    [predict_flow1] .. [predict_flow5] in this order, and three motion
    vectors of shape (B, 6), which are the outputs of [motion_1],
    [motion_2], [motion_3] in this order.  For any network and any input,
    a run of [forward] that returns gives five flows and three motions.
    (The run over shapes is a run in which [get_motion] returns; see
    [get_motion_returns] and C2.) *)
Theorem forward_returns_flows_and_motions (B : positive) :
  let net := FlowMotionNet_tree 4 in
  let b := Z.pos B in
  (forall h : Heap, exists h', FlowMotionNet_init 4 h = OK (net, h')) /\
  (exists log,
     forward_shapes net [b; 6; 256; 320]
     = OK ([[b; 2; 128; 160]; [b; 2; 64; 80]; [b; 2; 32; 40];
            [b; 2; 16; 20]; [b; 2; 8; 10]],
           [[b; 6]; [b; 6]; [b; 6]], log)) /\
  (exists flow1 flow2 flow3 flow4 flow5 motion1 motion2 motion3 : nat,
     forward_graph.1 = ([flow1; flow2; flow3; flow4; flow5],
                        [motion1; motion2; motion3]) /\
     op <$> the_graph !! flow1 = Some (Call "predict_flow1") /\
     op <$> the_graph !! flow2 = Some (Call "predict_flow2") /\
     op <$> the_graph !! flow3 = Some (Call "predict_flow3") /\
     op <$> the_graph !! flow4 = Some (Call "predict_flow4") /\
     op <$> the_graph !! flow5 = Some (Call "predict_flow5") /\
     op <$> the_graph !! motion1 = Some (Call "motion_1") /\
     op <$> the_graph !! motion2 = Some (Call "motion_2") /\
     op <$> the_graph !! motion3 = Some (Call "motion_3")) /\
  (forall net' x flows motions log,
     forward_shapes net' x = OK (flows, motions, log) ->
     length flows = 5%nat /\ length motions = 3%nat).
Proof.
  cbv zeta. split; [apply FlowMotionNet_init_tree|].
  split; [eexists; apply forward_shapes_default|].
  split.
  - exists 123%nat, 102%nat, 82%nat, 64%nat, 46%nat, 124%nat, 106%nat, 86%nat.
    repeat split; vm_compute; reflexivity.
  - apply forward_shapes_lengths.
Qed.

End PipelineFacts.

(** ** The wiring of [forward] *)

Section Wiring.




End Wiring.
